(** * SiStripRegionCabling: the regional view of the silicon strip tracker cabling

    A shallow embedding of
    [CalibFormats/SiStripObjects/interface/SiStripRegionCabling.h]:
    the (eta, phi) grid codec, the element-index codec, the periodic phi
    normalisation and the window selectors that fill a [SiStripRefGetter].

    Conventions.
    - [uint32_t] values are integers of [Z]; every arithmetic operation of
      the source is followed by its reduction modulo 2^32 ([wrap32]).
    - [double] values are read through the interface [DoubleOps], which has
      two instances: IEEE-754 binary64 ([PrimFloat.float], what the program
      computes) and the real numbers (what the formulas mean in exact
      arithmetic).
    - An operation whose behaviour is undefined in C++ (integer division by
      zero, conversion of an out-of-range [double] to [uint32_t]) returns
      [None]. *)

From Stdlib Require Import ZArith List Bool Lia.
From Stdlib Require Import Floats.
From Stdlib Require Import Reals Lra.
Import ListNotations.

Local Open Scope Z_scope.

(** ** Unsigned 32-bit arithmetic *)

Module UInt32.

Definition modulus : Z := 2 ^ 32.

Definition wrap32 (z : Z) : Z := z mod modulus.

Definition is_uint32 (z : Z) : Prop := 0 <= z < modulus.

Definition add32 (a b : Z) : Z := wrap32 (a + b).
Definition sub32 (a b : Z) : Z := wrap32 (a - b).
Definition mul32 (a b : Z) : Z := wrap32 (a * b).

End UInt32.
Export UInt32.

(** ** Double-precision arithmetic *)

(** The operations on [double] that the header uses. [d_of_Z] is both the
    conversion of an unsigned integer to [double] and the reading of an
    integral literal such as [2.]; [d_to_uint32] is the conversion of a
    [double] to [uint32_t], which truncates toward zero and is undefined
    when the truncated value does not fit. *)
Class DoubleOps (D : Type) : Type := {
  d_of_Z : Z -> D;
  d_add : D -> D -> D;
  d_mul : D -> D -> D;
  d_div : D -> D -> D;
  d_sqrt : D -> D;
  d_pi : D;
  d_to_uint32 : D -> option Z
}.

Declare Scope double_scope.
Delimit Scope double_scope with D.
Infix "+" := d_add : double_scope.
Infix "*" := d_mul : double_scope.
Infix "/" := d_div : double_scope.

(** [M_PI] of <cmath>: the binary64 number nearest to pi. *)
Definition float_M_PI : float := 0x1.921fb54442d18p+1%float.

(** Truncation toward zero of a binary64 number, as an integer; [None] for
    NaN and the infinities. *)
Definition float_trunc (x : float) : option Z :=
  match Prim2SF x with
  | S754_zero _ => Some 0
  | S754_finite sgn m e =>
      let mag := Z.shiftl (Z.pos m) e in
      Some (if sgn then - mag else mag)
  | S754_infinity _ => None
  | S754_nan => None
  end.

Definition float_to_uint32 (x : float) : option Z :=
  match float_trunc x with
  | Some t => if (0 <=? t) && (t <? modulus) then Some t else None
  | None => None
  end.

#[export] Instance binary64 : DoubleOps float := {
  d_of_Z := fun z => PrimFloat.of_uint63 (Uint63.of_Z z);
  d_add := PrimFloat.add;
  d_mul := PrimFloat.mul;
  d_div := PrimFloat.div;
  d_sqrt := PrimFloat.sqrt;
  d_pi := float_M_PI;
  d_to_uint32 := float_to_uint32
}.

Definition R_to_uint32 (x : R) : option Z :=
  let t := if Rle_dec 0 x then Int_part x else - Int_part (- x) in
  if (0 <=? t) && (t <? modulus) then Some t else None.

#[export] Instance exact : DoubleOps R := {
  d_of_Z := IZR;
  d_add := Rplus;
  d_mul := Rmult;
  d_div := Rdiv;
  d_sqrt := sqrt;
  d_pi := PI;
  d_to_uint32 := R_to_uint32
}.

(** ** The class SiStripRegionCabling *)

Definition MAXLAYERS : Z := 10.
Definition MAXSUBDETS : Z := 4.

Inductive SubDet : Type := TIB | TOB | TID | TEC | UNKNOWN.

(** The integer value of an enumerator. *)
Definition SubDet_to_Z (s : SubDet) : Z :=
  match s with
  | TIB => 0
  | TOB => 1
  | TID => 2
  | TEC => 3
  | UNKNOWN => 4
  end.

(** [static_cast<SubDet>(z)]: the enumerator whose value is [z]; [None]
    when no enumerator has that value. *)
Definition SubDet_of_Z (z : Z) : option SubDet :=
  match z with
  | 0 => Some TIB
  | 1 => Some TOB
  | 2 => Some TID
  | 3 => Some TEC
  | 4 => Some UNKNOWN
  | _ => None
  end.

Definition Region : Type := Z.
Definition Layer : Type := Z.
Definition ElementIndex : Type := Z.
Definition PositionIndex : Type := (Z * Z)%type.

(** *** Static members: the element-index codec *)

Definition elementIndex (region : Region) (subdet : SubDet) (layer : Layer)
  : ElementIndex :=
  add32 (add32 (mul32 (mul32 region MAXSUBDETS) MAXLAYERS)
               (mul32 (SubDet_to_Z subdet) MAXLAYERS))
        layer.

Definition layer (index : ElementIndex) : Layer := index mod MAXLAYERS.

Definition subdet (index : ElementIndex) : option SubDet :=
  SubDet_of_Z ((index / MAXLAYERS) mod MAXSUBDETS).

Definition region_ElementIndex (index : ElementIndex) : Region :=
  index / (mul32 MAXSUBDETS MAXLAYERS).

(** [SiStripRefGetter::push_back(lazygetter, index)] registers interest in
    one element; the getter is modelled by the sequence of the element
    indices registered so far, and the selector that is handed an
    [ElementIndex] registers exactly that one. *)
Definition RefGetter : Type := list ElementIndex.

Definition updateSiStripRefGetter_index (refgetter : RefGetter)
  (index : ElementIndex) : RefGetter :=
  refgetter ++ [index].

(** Sequencing of computations that may fail. *)
Notation "x <- e ;; k" :=
  (match e with Some x => k | None => None end)
  (at level 61, e at next level, right associativity).

(** The values [0, 1, ..., n - 1] that a counter below [n] takes. *)
Definition upto (n : Z) : list Z := map Z.of_nat (seq 0 (Z.to_nat n)).

(** A counting loop [for (uint32_t i = 0; i < bound; i++) body(i)] over a
    threaded state that may fail. *)
Definition for_uint32 {S : Type} (bound : Z) (body : Z -> S -> option S)
  (init : S) : option S :=
  fold_left (fun acc i => s <- acc ;; body i s) (upto bound) (Some init).

(** Mapping a function that may fail over a list, failing when it fails
    on an element. *)
Fixpoint traverse {A B : Type} (f : A -> option B) (xs : list A)
  : option (list B) :=
  match xs with
  | [] => Some []
  | x :: xs' => y <- f x ;; ys <- traverse f xs' ;; Some (y :: ys)
  end.

(** The candidate cells of a window of half-widths [deta] and [dphi] bins
    around [index], row by row, in 32-bit arithmetic. *)
Definition window_candidates (index : PositionIndex) (deta dphi : Z)
  : list PositionIndex :=
  flat_map
    (fun ieta =>
       map (fun iphi => (add32 (sub32 (fst index) deta) ieta,
                         add32 (sub32 (snd index) dphi) iphi))
           (upto (add32 (mul32 2 dphi) 1)))
    (upto (add32 (mul32 2 deta) 1)).

Section Instance_members.

Variable D : Type.
Context {ops : DoubleOps D}.

(** The payload of the cabling table, [FedChannelConnection], is declared in
    CondFormats and is opaque here. *)
Variable FedChannelConnection : Type.

Definition Position : Type := (D * D)%type.

(** [std::map<uint32_t, std::vector<FedChannelConnection>>], as the list of
    its entries in key order. *)
Definition ElementCabling : Type := list (Z * list FedChannelConnection).
Definition WedgeCabling : Type := list ElementCabling.
Definition RegionCabling : Type := list WedgeCabling.
Definition Cabling : Type := list RegionCabling.

Record SiStripRegionCabling : Type := {
  etadivisions_ : Z;
  phidivisions_ : Z;
  etamax_ : D;
  regioncabling_ : Cabling
}.

Definition setRegionCabling (c : SiStripRegionCabling)
  (regioncabling : Cabling) : SiStripRegionCabling :=
  {| etadivisions_ := etadivisions_ c;
     phidivisions_ := phidivisions_ c;
     etamax_ := etamax_ c;
     regioncabling_ := regioncabling |}.

Definition getRegionCabling (c : SiStripRegionCabling) : Cabling :=
  regioncabling_ c.

Definition etadivisions (c : SiStripRegionCabling) : Z := etadivisions_ c.

Definition phidivisions (c : SiStripRegionCabling) : Z := phidivisions_ c.

Definition regionDimensions (c : SiStripRegionCabling) : D * D :=
  ((d_of_Z 2 * etamax_ c) / d_of_Z (etadivisions_ c),
   (d_of_Z 2 * d_pi) / d_of_Z (phidivisions_ c))%D.

Definition position_PositionIndex (c : SiStripRegionCabling)
  (index : PositionIndex) : Position :=
  (fst (regionDimensions c) * d_of_Z (fst index)
     + fst (regionDimensions c) / d_of_Z 2,
   snd (regionDimensions c) * d_of_Z (snd index)
     + snd (regionDimensions c) / d_of_Z 2)%D.

(** Integer division by [phidivisions_]; undefined when it is zero. *)
Definition positionIndex_Region (c : SiStripRegionCabling) (region : Region)
  : option PositionIndex :=
  if phidivisions_ c =? 0 then None
  else Some (region / phidivisions_ c, region mod phidivisions_ c).

Definition position_Region (c : SiStripRegionCabling) (region : Region)
  : option Position :=
  match positionIndex_Region c region with
  | Some index => Some (position_PositionIndex c index)
  | None => None
  end.

Definition region_PositionIndex (c : SiStripRegionCabling)
  (index : PositionIndex) : Region :=
  add32 (mul32 (fst index) (phidivisions_ c)) (snd index).

(** [periodicIndex] updates its argument in place and returns a flag: the
    result is the argument as the call leaves it, and the flag. The tests
    [index.second < 0] and [index.first < 0] are those of the source; on
    unsigned values they never hold. *)
Definition periodicIndex (c : SiStripRegionCabling) (index : PositionIndex)
  : PositionIndex * bool :=
  let second :=
    if snd index >=? phidivisions_ c then sub32 (snd index) (phidivisions_ c)
    else if snd index <? 0 then add32 (snd index) (phidivisions_ c)
    else snd index in
  let index' := (fst index, second) in
  if (fst index <? 0) || (fst index >=? etadivisions_ c)
  then (index', false)
  else (index', true).

(** *** Members defined in SiStripRegionCabling.cc

    [positionIndex(Position)] and [region(Position)] are declared in the
    header and defined elsewhere; the selectors below call them, so they
    are parameters of the development. Both may fail (conversion of a
    [double] to an integer). *)
Variable positionIndex_Position :
  SiStripRegionCabling -> Position -> option PositionIndex.
Variable region_Position : SiStripRegionCabling -> Position -> option Region.

Definition elementIndex_Position (c : SiStripRegionCabling)
  (position : Position) (subdet : SubDet) (layer : Layer)
  : option ElementIndex :=
  r <- region_Position c position ;;
  Some (elementIndex r subdet layer).

(** [Position(indextemp)]: the converting constructor of
    [std::pair<double,double>] applied to a pair of [uint32_t]; each bin
    number becomes the [double] of the same value. *)
Definition Position_of_PositionIndex (index : PositionIndex) : Position :=
  (d_of_Z (fst index), d_of_Z (snd index)).

(** *** The window selectors *)

(** The body of the inner loop: one candidate cell. *)
Definition window_cell (c : SiStripRegionCabling) (index : PositionIndex)
  (deta dphi : Z) (subdet : SubDet) (layer : Layer) (ieta iphi : Z)
  (refgetter : RefGetter) : option RefGetter :=
  let indextemp := (add32 (sub32 (fst index) deta) ieta,
                    add32 (sub32 (snd index) dphi) iphi) in
  let (indextemp', ok) := periodicIndex c indextemp in
  if negb ok then Some refgetter
  else
    e <- elementIndex_Position c (Position_of_PositionIndex indextemp')
                               subdet layer ;;
    Some (updateSiStripRefGetter_index refgetter e).

Definition updateSiStripRefGetter_window (c : SiStripRegionCabling)
  (refgetter : RefGetter) (position : Position) (deltaeta deltaphi : D)
  (subdet : SubDet) (layer : Layer) : option RefGetter :=
  index <- positionIndex_Position c position ;;
  deta <- d_to_uint32 (deltaeta / fst (regionDimensions c))%D ;;
  dphi <- d_to_uint32 (deltaphi / snd (regionDimensions c))%D ;;
  for_uint32 (add32 (mul32 2 deta) 1)
    (fun ieta =>
       for_uint32 (add32 (mul32 2 dphi) 1)
         (fun iphi => window_cell c index deta dphi subdet layer ieta iphi))
    refgetter.

Definition updateSiStripRefGetter_cone (c : SiStripRegionCabling)
  (refgetter : RefGetter) (position : Position) (dR : D)
  (subdet : SubDet) (layer : Layer) : option RefGetter :=
  updateSiStripRefGetter_window c refgetter position
    (d_of_Z 1 / d_sqrt (d_of_Z 2) * dR * dR)%D
    (d_of_Z 1 / d_sqrt (d_of_Z 2) * dR * dR)%D
    subdet layer.

(** The requests that one candidate cell gives rise to: none when
    [periodicIndex] rejects it, one otherwise. *)
Definition cell_requests (c : SiStripRegionCabling) (subdet : SubDet)
  (layer : Layer) (candidate : PositionIndex) : option (list ElementIndex) :=
  let (normalised, ok) := periodicIndex c candidate in
  if ok then
    e <- elementIndex_Position c (Position_of_PositionIndex normalised)
                               subdet layer ;;
    Some [e]
  else Some [].

(** The reduction of the conical tolerance in the words of the
    specification: "deltaEta = deltaPhi = dR^2 / sqrt 2", handed to the
    rectangular selector. *)
Definition conical_halfwidth_spec (dR : D) : D :=
  (dR * dR / d_sqrt (d_of_Z 2))%D.

Definition updateSiStripRefGetter_cone_spec (c : SiStripRegionCabling)
  (refgetter : RefGetter) (position : Position) (dR : D)
  (subdet : SubDet) (layer : Layer) : option RefGetter :=
  updateSiStripRefGetter_window c refgetter position
    (conical_halfwidth_spec dR) (conical_halfwidth_spec dR) subdet layer.

End Instance_members.

Arguments Build_SiStripRegionCabling {D FedChannelConnection}.
Arguments etadivisions_ {D FedChannelConnection} s.
Arguments phidivisions_ {D FedChannelConnection} s.
Arguments etamax_ {D FedChannelConnection} s.
Arguments regioncabling_ {D FedChannelConnection} s.
Arguments setRegionCabling {D FedChannelConnection} c regioncabling.
Arguments getRegionCabling {D FedChannelConnection} c.
Arguments etadivisions {D FedChannelConnection} c.
Arguments phidivisions {D FedChannelConnection} c.
Arguments regionDimensions {D ops FedChannelConnection} c.
Arguments position_PositionIndex {D ops FedChannelConnection} c index.
Arguments positionIndex_Region {D FedChannelConnection} c region.
Arguments position_Region {D ops FedChannelConnection} c region.
Arguments region_PositionIndex {D FedChannelConnection} c index.
Arguments periodicIndex {D FedChannelConnection} c index.
Arguments elementIndex_Position {D FedChannelConnection}
  region_Position c position subdet layer.
Arguments Position_of_PositionIndex {D ops} index.
Arguments window_cell {D ops FedChannelConnection}
  region_Position c index deta dphi subdet layer ieta iphi refgetter.
Arguments updateSiStripRefGetter_window {D ops FedChannelConnection}
  positionIndex_Position region_Position
  c refgetter position deltaeta deltaphi subdet layer.
Arguments updateSiStripRefGetter_cone {D ops FedChannelConnection}
  positionIndex_Position region_Position
  c refgetter position dR subdet layer.
Arguments cell_requests {D ops FedChannelConnection}
  region_Position c subdet layer candidate.
Arguments conical_halfwidth_spec {D ops} dR.
Arguments updateSiStripRefGetter_cone_spec {D ops FedChannelConnection}
  positionIndex_Position region_Position
  c refgetter position dR subdet layer.
(** ** Member functions as computations on the instance

    To say what a call does to the instance, a member function is read as
    a computation that takes the instance and returns its result together
    with the instance as the call leaves it. The bodies below follow the
    header statement by statement: a use of a data member is a [read], the
    one assignment to a data member is in [setRegionCabling_member], and a
    call of another member is sequenced with [bind], so that it could
    change what the later statements see. *)

Section Member_functions.

Variable D : Type.
Context {ops : DoubleOps D}.
Variable FedChannelConnection : Type.

Definition Member (A : Type) : Type :=
  SiStripRegionCabling D FedChannelConnection
  -> A * SiStripRegionCabling D FedChannelConnection.

Definition ret {A : Type} (a : A) : Member A := fun c => (a, c).

Definition bind {A B : Type} (m : Member A) (k : A -> Member B) : Member B :=
  fun c => let (a, c') := m c in k a c'.

Definition read {A : Type}
  (member : SiStripRegionCabling D FedChannelConnection -> A) : Member A :=
  fun c => (member c, c).

Notation "x <~ m ;; k" := (bind m (fun x => k))
  (at level 61, m at next level, right associativity).

(** A member function [m] only reads the instance, and computes [f], when
    every call returns [f] of the instance and hands the instance back. *)
Definition reads {A : Type}
  (f : SiStripRegionCabling D FedChannelConnection -> A) (m : Member A)
  : Prop :=
  forall c, m c = (f c, c).

(** [regioncabling_ = regioncabling;] *)
Definition setRegionCabling_member (regioncabling : Cabling FedChannelConnection)
  : Member unit :=
  fun c => (tt, setRegionCabling c regioncabling).

(** The class declares no copy assignment, so it has the implicit public
    one, which assigns the four data members one by one. *)
Definition copy_assignment
  (other : SiStripRegionCabling D FedChannelConnection) : Member unit :=
  fun _ => (tt, Build_SiStripRegionCabling
                  (etadivisions_ other) (phidivisions_ other)
                  (etamax_ other) (regioncabling_ other)).

Definition getRegionCabling_member : Member (Cabling FedChannelConnection) :=
  read regioncabling_.

Definition etadivisions_member : Member Z := read etadivisions_.

Definition phidivisions_member : Member Z := read phidivisions_.

Definition regionDimensions_member : Member (D * D) :=
  etamax <~ read etamax_ ;;
  etadivisions <~ read etadivisions_ ;;
  phidivisions <~ read phidivisions_ ;;
  ret ((d_of_Z 2 * etamax) / d_of_Z etadivisions,
       (d_of_Z 2 * d_pi) / d_of_Z phidivisions)%D.

(** The body calls [regionDimensions()] four times. *)
Definition position_PositionIndex_member (index : PositionIndex)
  : Member (Position D) :=
  d1 <~ regionDimensions_member ;;
  d2 <~ regionDimensions_member ;;
  d3 <~ regionDimensions_member ;;
  d4 <~ regionDimensions_member ;;
  ret (fst d1 * d_of_Z (fst index) + fst d2 / d_of_Z 2,
       snd d3 * d_of_Z (snd index) + snd d4 / d_of_Z 2)%D.

Definition positionIndex_Region_member (region : Region)
  : Member (option PositionIndex) :=
  phidivisions <~ read phidivisions_ ;;
  ret (if phidivisions =? 0 then None
       else Some (region / phidivisions, region mod phidivisions)).

Definition position_Region_member (region : Region)
  : Member (option (Position D)) :=
  index <~ positionIndex_Region_member region ;;
  match index with
  | Some index' =>
      position <~ position_PositionIndex_member index' ;; ret (Some position)
  | None => ret None
  end.

Definition region_PositionIndex_member (index : PositionIndex)
  : Member Region :=
  phidivisions <~ read phidivisions_ ;;
  ret (add32 (mul32 (fst index) phidivisions) (snd index)).

Definition periodicIndex_member (index : PositionIndex)
  : Member (PositionIndex * bool) :=
  phidivisions <~ read phidivisions_ ;;
  let second :=
    if snd index >=? phidivisions then sub32 (snd index) phidivisions
    else if snd index <? 0 then add32 (snd index) phidivisions
    else snd index in
  etadivisions <~ read etadivisions_ ;;
  ret (if (fst index <? 0) || (fst index >=? etadivisions)
       then ((fst index, second), false)
       else ((fst index, second), true)).

(** The two members defined in SiStripRegionCabling.cc, as computations:
    what they do to the instance is not in the sources. *)
Variable positionIndex_Position_member :
  Position D -> Member (option PositionIndex).
Variable region_Position_member : Position D -> Member (option Region).

(** The static members of SiStripRegionCabling.cc; a static member has no
    instance. *)
Variable subdetFromDetId : Z -> SubDet.
Variable layerFromDetId : Z -> Z.

Definition elementIndex_Position_member (position : Position D)
  (subdet : SubDet) (layer : Layer) : Member (option ElementIndex) :=
  region <~ region_Position_member position ;;
  ret (r <- region ;; Some (elementIndex r subdet layer)).

(** [refgetter.push_back(lazygetter, index);] *)
Definition updateSiStripRefGetter_index_member (refgetter : RefGetter)
  (index : ElementIndex) : Member RefGetter :=
  ret (updateSiStripRefGetter_index refgetter index).

(** A counting loop whose body is a computation on the instance. *)
Definition for_member {S : Type} (bound : Z)
  (body : Z -> S -> Member (option S)) (init : S) : Member (option S) :=
  fold_left (fun (acc : Member (option S)) i =>
               s <~ acc ;;
               match s with
               | Some s' => body i s'
               | None => ret None
               end)
            (upto bound) (ret (Some init)).

Definition window_cell_member (index : PositionIndex) (deta dphi : Z)
  (subdet : SubDet) (layer : Layer) (ieta iphi : Z) (refgetter : RefGetter)
  : Member (option RefGetter) :=
  let indextemp := (add32 (sub32 (fst index) deta) ieta,
                    add32 (sub32 (snd index) dphi) iphi) in
  normalised <~ periodicIndex_member indextemp ;;
  if negb (snd normalised) then ret (Some refgetter)
  else
    e <~ elementIndex_Position_member
           (Position_of_PositionIndex (fst normalised)) subdet layer ;;
    match e with
    | Some e' =>
        refgetter' <~ updateSiStripRefGetter_index_member refgetter e' ;;
        ret (Some refgetter')
    | None => ret None
    end.

Definition updateSiStripRefGetter_window_member (refgetter : RefGetter)
  (position : Position D) (deltaeta deltaphi : D) (subdet : SubDet)
  (layer : Layer) : Member (option RefGetter) :=
  index <~ positionIndex_Position_member position ;;
  match index with
  | None => ret None
  | Some index' =>
      d1 <~ regionDimensions_member ;;
      match d_to_uint32 (deltaeta / fst d1)%D with
      | None => ret None
      | Some deta =>
          d2 <~ regionDimensions_member ;;
          match d_to_uint32 (deltaphi / snd d2)%D with
          | None => ret None
          | Some dphi =>
              for_member (add32 (mul32 2 deta) 1)
                (fun ieta =>
                   for_member (add32 (mul32 2 dphi) 1)
                     (fun iphi =>
                        window_cell_member index' deta dphi subdet layer
                                           ieta iphi))
                refgetter
          end
      end
  end.

Definition updateSiStripRefGetter_cone_member (refgetter : RefGetter)
  (position : Position D) (dR : D) (subdet : SubDet) (layer : Layer)
  : Member (option RefGetter) :=
  updateSiStripRefGetter_window_member refgetter position
    (d_of_Z 1 / d_sqrt (d_of_Z 2) * dR * dR)%D
    (d_of_Z 1 / d_sqrt (d_of_Z 2) * dR * dR)%D
    subdet layer.

(** The public operations on an instance that exists: the member
    functions that the class declares, and the implicit copy
    assignment. *)
Inductive Call : Type -> Type :=
| call_setRegionCabling : Cabling FedChannelConnection -> Call unit
| call_copy_assignment :
    SiStripRegionCabling D FedChannelConnection -> Call unit
| call_getRegionCabling : Call (Cabling FedChannelConnection)
| call_etadivisions : Call Z
| call_phidivisions : Call Z
| call_regionDimensions : Call (D * D)
| call_position_Region : Region -> Call (option (Position D))
| call_position_PositionIndex : PositionIndex -> Call (Position D)
| call_positionIndex_Region : Region -> Call (option PositionIndex)
| call_positionIndex_Position : Position D -> Call (option PositionIndex)
| call_region_Position : Position D -> Call (option Region)
| call_region_PositionIndex : PositionIndex -> Call Region
| call_periodicIndex : PositionIndex -> Call (PositionIndex * bool)
| call_elementIndex : Region -> SubDet -> Layer -> Call ElementIndex
| call_elementIndex_Position :
    Position D -> SubDet -> Layer -> Call (option ElementIndex)
| call_layer : ElementIndex -> Call Layer
| call_subdet : ElementIndex -> Call (option SubDet)
| call_region_ElementIndex : ElementIndex -> Call Region
| call_subdetFromDetId : Z -> Call SubDet
| call_layerFromDetId : Z -> Call Z
| call_updateSiStripRefGetter_index :
    RefGetter -> ElementIndex -> Call RefGetter
| call_updateSiStripRefGetter_window :
    RefGetter -> Position D -> D -> D -> SubDet -> Layer ->
    Call (option RefGetter)
| call_updateSiStripRefGetter_cone :
    RefGetter -> Position D -> D -> SubDet -> Layer ->
    Call (option RefGetter).

Definition invoke {A : Type} (m : Call A) : Member A :=
  match m in Call T return Member T with
  | call_setRegionCabling t => setRegionCabling_member t
  | call_copy_assignment other => copy_assignment other
  | call_getRegionCabling => getRegionCabling_member
  | call_etadivisions => etadivisions_member
  | call_phidivisions => phidivisions_member
  | call_regionDimensions => regionDimensions_member
  | call_position_Region r => position_Region_member r
  | call_position_PositionIndex i => position_PositionIndex_member i
  | call_positionIndex_Region r => positionIndex_Region_member r
  | call_positionIndex_Position p => positionIndex_Position_member p
  | call_region_Position p => region_Position_member p
  | call_region_PositionIndex i => region_PositionIndex_member i
  | call_periodicIndex i => periodicIndex_member i
  | call_elementIndex r s l => ret (elementIndex r s l)
  | call_elementIndex_Position p s l => elementIndex_Position_member p s l
  | call_layer e => ret (layer e)
  | call_subdet e => ret (subdet e)
  | call_region_ElementIndex e => ret (region_ElementIndex e)
  | call_subdetFromDetId detid => ret (subdetFromDetId detid)
  | call_layerFromDetId detid => ret (layerFromDetId detid)
  | call_updateSiStripRefGetter_index g e =>
      updateSiStripRefGetter_index_member g e
  | call_updateSiStripRefGetter_window g p de dp s l =>
      updateSiStripRefGetter_window_member g p de dp s l
  | call_updateSiStripRefGetter_cone g p dR s l =>
      updateSiStripRefGetter_cone_member g p dR s l
  end.

(** The two operations that assign to data members. *)
Definition assigns {A : Type} (m : Call A) : bool :=
  match m with
  | call_setRegionCabling _ => true
  | call_copy_assignment _ => true
  | _ => false
  end.

End Member_functions.

Arguments ret {D FedChannelConnection A} a.
Arguments bind {D FedChannelConnection A B} m k.
Arguments read {D FedChannelConnection A} member.
Arguments reads {D FedChannelConnection A} f m.
Arguments setRegionCabling_member {D FedChannelConnection} regioncabling.
Arguments copy_assignment {D FedChannelConnection} other.
Arguments getRegionCabling_member {D FedChannelConnection}.
Arguments etadivisions_member {D FedChannelConnection}.
Arguments phidivisions_member {D FedChannelConnection}.
Arguments regionDimensions_member {D ops FedChannelConnection}.
Arguments position_PositionIndex_member {D ops FedChannelConnection} index.
Arguments positionIndex_Region_member {D FedChannelConnection} region.
Arguments position_Region_member {D ops FedChannelConnection} region.
Arguments region_PositionIndex_member {D FedChannelConnection} index.
Arguments periodicIndex_member {D FedChannelConnection} index.
Arguments elementIndex_Position_member {D FedChannelConnection}
  region_Position_member position subdet layer.
Arguments updateSiStripRefGetter_index_member {D FedChannelConnection}
  refgetter index.
Arguments for_member {D FedChannelConnection S} bound body init.
Arguments window_cell_member {D ops FedChannelConnection}
  region_Position_member index deta dphi subdet layer ieta iphi refgetter.
Arguments updateSiStripRefGetter_window_member {D ops FedChannelConnection}
  positionIndex_Position_member region_Position_member
  refgetter position deltaeta deltaphi subdet layer.
Arguments updateSiStripRefGetter_cone_member {D ops FedChannelConnection}
  positionIndex_Position_member region_Position_member
  refgetter position dR subdet layer.
Arguments call_setRegionCabling {D FedChannelConnection}.
Arguments call_copy_assignment {D FedChannelConnection}.
Arguments call_getRegionCabling {D FedChannelConnection}.
Arguments call_etadivisions {D FedChannelConnection}.
Arguments call_phidivisions {D FedChannelConnection}.
Arguments call_regionDimensions {D FedChannelConnection}.
Arguments call_position_Region {D FedChannelConnection}.
Arguments call_position_PositionIndex {D FedChannelConnection}.
Arguments call_positionIndex_Region {D FedChannelConnection}.
Arguments call_positionIndex_Position {D FedChannelConnection}.
Arguments call_region_Position {D FedChannelConnection}.
Arguments call_region_PositionIndex {D FedChannelConnection}.
Arguments call_periodicIndex {D FedChannelConnection}.
Arguments call_elementIndex {D FedChannelConnection}.
Arguments call_elementIndex_Position {D FedChannelConnection}.
Arguments call_layer {D FedChannelConnection}.
Arguments call_subdet {D FedChannelConnection}.
Arguments call_region_ElementIndex {D FedChannelConnection}.
Arguments call_subdetFromDetId {D FedChannelConnection}.
Arguments call_layerFromDetId {D FedChannelConnection}.
Arguments call_updateSiStripRefGetter_index {D FedChannelConnection}.
Arguments call_updateSiStripRefGetter_window {D FedChannelConnection}.
Arguments call_updateSiStripRefGetter_cone {D FedChannelConnection}.
Arguments invoke {D ops FedChannelConnection}
  positionIndex_Position_member region_Position_member
  subdetFromDetId layerFromDetId {A} m c.
Arguments assigns {D FedChannelConnection A} m.

(** ** The members of SiStripRegionCabling.cc, in binary64 *)

Definition float_of_Z (z : Z) : float :=
  if z <? 0 then PrimFloat.opp (PrimFloat.of_uint63 (Uint63.of_Z (- z)))
  else PrimFloat.of_uint63 (Uint63.of_Z z).

(** The largest integer not above a binary64 number; [None] for NaN and the
    infinities. *)
Definition float_floor (x : float) : option Z :=
  match Prim2SF x with
  | S754_zero _ => Some 0
  | S754_finite sgn m e =>
      Some (Z.shiftl (if sgn then Z.neg m else Z.pos m) e)
  | S754_infinity _ => None
  | S754_nan => None
  end.

(** Modelled from the spec: [positionIndex(Position)], whose body is in
    SiStripRegionCabling.cc and not among the sources. The spec: "inverse
    mapping [...] floor-divide eta by dEta; phi must be reduced modulo 2 pi
    before dividing by dPhi, since phi is cyclic but eta is not". The bins
    are stored in [uint32_t]. *)
Definition positionIndex_Position_spec {FedChannelConnection : Type}
  (c : SiStripRegionCabling float FedChannelConnection)
  (position : Position float) : option PositionIndex :=
  let twopi := (2 * float_M_PI)%float in
  eta_bin <- float_floor (fst position / fst (regionDimensions c))%float ;;
  turns <- float_floor (snd position / twopi)%float ;;
  let phi := (snd position - twopi * float_of_Z turns)%float in
  phi_bin <- float_floor (phi / snd (regionDimensions c))%float ;;
  Some (wrap32 eta_bin, wrap32 phi_bin).

(** Modelled from the spec: [region(Position)], whose body is in
    SiStripRegionCabling.cc and not among the sources; the spec lists it
    with [positionIndex(Position)] as the inverse mapping, and a Region is
    "eta_bin * phidivisions + phi_bin". *)
Definition region_Position_spec {FedChannelConnection : Type}
  (c : SiStripRegionCabling float FedChannelConnection)
  (position : Position float) : option Region :=
  index <- positionIndex_Position_spec c position ;;
  Some (region_PositionIndex c index).

(** The two members, modelled from the spec as above, as computations on
    the instance: they read it. *)
Definition positionIndex_Position_spec_member (position : Position float)
  : Member float unit (option PositionIndex) :=
  read (fun c => positionIndex_Position_spec c position).

Definition region_Position_spec_member (position : Position float)
  : Member float unit (option Region) :=
  read (fun c => region_Position_spec c position).

(** ** Small grids *)

(** Four eta divisions, eight phi divisions, eta up to 2.5, no cabling
    installed. *)
Definition grid_4x8 : SiStripRegionCabling float unit :=
  Build_SiStripRegionCabling 4 8 2.5%float [].

(** Four eta divisions of width 1, six phi divisions of width pi/3. *)
Definition grid_4x6 : SiStripRegionCabling float unit :=
  Build_SiStripRegionCabling 4 6 2%float [].

(** Two eta divisions whose width is the binary64 value of
    [0.1 * 0.1 / sqrt 2], six phi divisions. *)
Definition grid_fine : SiStripRegionCabling float unit :=
  Build_SiStripRegionCabling 2 6 0x1.cf68d4fff04dep-8%float [].

(** * Properties *)

(** ** Unsigned arithmetic *)

Lemma modulus_pos : 0 < modulus.
Proof. reflexivity. Qed.

Lemma wrap32_range (z : Z) : is_uint32 (wrap32 z).
Proof. unfold is_uint32, wrap32. apply Z.mod_pos_bound, modulus_pos. Qed.

Lemma wrap32_small (z : Z) : is_uint32 z -> wrap32 z = z.
Proof. unfold is_uint32, wrap32. intros H. now apply Z.mod_small. Qed.

Lemma wrap32_add_l (a b : Z) : wrap32 (wrap32 a + b) = wrap32 (a + b).
Proof. unfold wrap32. apply Z.add_mod_idemp_l. discriminate. Qed.

Lemma wrap32_add_r (a b : Z) : wrap32 (a + wrap32 b) = wrap32 (a + b).
Proof. unfold wrap32. apply Z.add_mod_idemp_r. discriminate. Qed.

Lemma wrap32_mul_l (a b : Z) : wrap32 (wrap32 a * b) = wrap32 (a * b).
Proof. unfold wrap32. apply Z.mul_mod_idemp_l. discriminate. Qed.

(** ** The element-index codec *)

(** The encoder computes [region * 40 + subdet * 10 + layer] modulo 2^32. *)
Lemma elementIndex_closed_form (r : Region) (s : SubDet) (l : Layer) :
  elementIndex r s l = wrap32 (r * 40 + SubDet_to_Z s * 10 + l).
Proof.
  unfold elementIndex, add32, mul32, MAXSUBDETS, MAXLAYERS.
  rewrite wrap32_add_l, <- Z.add_assoc, wrap32_add_l.
  rewrite (Z.add_comm (wrap32 (SubDet_to_Z s * 10)) l), Z.add_assoc.
  rewrite wrap32_add_r, <- Z.add_assoc.
  rewrite <- (wrap32_add_l (wrap32 (r * 4) * 10)), wrap32_mul_l, wrap32_add_l.
  f_equal. lia.
Qed.

Lemma SubDet_of_to_Z (s : SubDet) : SubDet_of_Z (SubDet_to_Z s) = Some s.
Proof. now destruct s. Qed.

Lemma SubDet_of_Z_inv (z : Z) (s : SubDet) :
  SubDet_of_Z z = Some s -> z = SubDet_to_Z s.
Proof.
  destruct z as [|p|p]; simpl; try discriminate.
  - now intros [= <-].
  - destruct p as [[[]|[]|]|[[]|[]|]|]; simpl; try discriminate;
      now intros [= <-].
Qed.

Lemma SubDet_to_Z_defined (s : SubDet) :
  s <> UNKNOWN -> 0 <= SubDet_to_Z s < MAXSUBDETS.
Proof. destruct s; unfold MAXSUBDETS; simpl; intros H; try lia. now elim H. Qed.

(** The sub-detector field of any index is one of the four detectors. *)
Lemma subdet_defined (index : ElementIndex) :
  exists s, subdet index = Some s /\ s <> UNKNOWN
            /\ SubDet_to_Z s = (index / MAXLAYERS) mod MAXSUBDETS.
Proof.
  unfold subdet.
  assert (H : 0 <= (index / MAXLAYERS) mod MAXSUBDETS < 4)
    by (apply Z.mod_pos_bound; reflexivity).
  set (k := (index / MAXLAYERS) mod MAXSUBDETS) in *.
  assert (Hk : k = 0 \/ k = 1 \/ k = 2 \/ k = 3) by lia.
  destruct Hk as [-> | [-> | [-> | ->]]];
    [exists TIB | exists TOB | exists TID | exists TEC];
    repeat split; discriminate.
Qed.

(** Decoding then encoding is the identity on every 32-bit index. *)
Lemma elementIndex_of_fields (e : ElementIndex) (s : SubDet) :
  is_uint32 e -> subdet e = Some s ->
  elementIndex (region_ElementIndex e) s (layer e) = e.
Proof.
  intros He Hs. rewrite elementIndex_closed_form.
  unfold subdet in Hs. apply SubDet_of_Z_inv in Hs. rewrite <- Hs.
  unfold region_ElementIndex, layer, mul32, MAXSUBDETS, MAXLAYERS.
  change (wrap32 (4 * 10)) with 40.
  replace (e / 40 * 40 + (e / 10) mod 4 * 10 + e mod 10) with e.
  - now apply wrap32_small.
  - pose proof (Z.div_mod e 10 ltac:(discriminate)).
    pose proof (Z.div_mod (e / 10) 4 ltac:(discriminate)).
    rewrite Z.div_div in * by lia. change (10 * 4) with 40 in *. lia.
Qed.

(** Encoding then decoding recovers the three fields when the encoding does
    not leave the 32-bit range. *)
Lemma fields_of_elementIndex (r : Region) (s : SubDet) (l : Layer) :
  0 <= r -> s <> UNKNOWN -> 0 <= l < MAXLAYERS ->
  r * 40 + SubDet_to_Z s * 10 + l < modulus ->
  region_ElementIndex (elementIndex r s l) = r
  /\ subdet (elementIndex r s l) = Some s
  /\ layer (elementIndex r s l) = l.
Proof.
  intros Hr Hs Hl Hfit.
  pose proof (SubDet_to_Z_defined s Hs) as Hz.
  unfold MAXLAYERS, MAXSUBDETS in *.
  rewrite elementIndex_closed_form, wrap32_small by (unfold is_uint32; lia).
  unfold region_ElementIndex, subdet, layer, mul32, MAXSUBDETS, MAXLAYERS.
  change (wrap32 (4 * 10)) with 40.
  set (z := SubDet_to_Z s) in *.
  assert (H1 : (r * 40 + z * 10 + l) / 40 = r)
    by (symmetry; apply (Z.div_unique _ 40 r (z * 10 + l)); lia).
  assert (H2 : (r * 40 + z * 10 + l) / 10 = r * 4 + z)
    by (symmetry; apply (Z.div_unique _ 10 (r * 4 + z) l); lia).
  assert (H3 : (r * 40 + z * 10 + l) mod 10 = l)
    by (symmetry; apply (Z.mod_unique _ 10 (r * 4 + z) l); lia).
  assert (H4 : (r * 4 + z) mod 4 = z)
    by (symmetry; apply (Z.mod_unique _ 4 r z); lia).
  rewrite H1, H2, H3, H4. subst z. rewrite SubDet_of_to_Z. auto.
Qed.

(** C1 (as amended). For an element index [e = elementIndex r s l] with [s]
    one of TIB, TOB, TID, TEC and [l] below MAXLAYERS, re-encoding the
    decoded fields gives [e] back; and the decoders recover [r], [s] and
    [l] exactly when [r * 40 + s * 10 + l] fits in 32 bits. *)
Theorem elementIndex_decoders_inverse (r : Region) (s : SubDet) (l : Layer) :
  is_uint32 r -> s <> UNKNOWN -> 0 <= l < MAXLAYERS ->
  let e := elementIndex r s l in
  (exists s', subdet e = Some s'
              /\ elementIndex (region_ElementIndex e) s' (layer e) = e)
  /\ (region_ElementIndex e = r /\ subdet e = Some s /\ layer e = l
      <-> r * MAXSUBDETS * MAXLAYERS + SubDet_to_Z s * MAXLAYERS + l
          < modulus).
Proof.
  intros Hr Hs Hl e. split.
  - destruct (subdet_defined e) as (s' & Hs' & _).
    exists s'. split; [exact Hs'|].
    apply elementIndex_of_fields; [|exact Hs'].
    unfold e. rewrite elementIndex_closed_form. apply wrap32_range.
  - replace (r * MAXSUBDETS * MAXLAYERS + SubDet_to_Z s * MAXLAYERS + l)
      with (r * 40 + SubDet_to_Z s * 10 + l)
      by (unfold MAXSUBDETS, MAXLAYERS; lia).
    split.
    + intros (H1 & H2 & H3).
      assert (He : is_uint32 e)
        by (unfold e; rewrite elementIndex_closed_form; apply wrap32_range).
      pose proof (elementIndex_of_fields e s He H2) as Hback.
      rewrite H1, H3, elementIndex_closed_form in Hback.
      pose proof (SubDet_to_Z_defined s Hs) as Hz.
      unfold is_uint32, MAXSUBDETS, MAXLAYERS in *.
      assert (Hsplit : e = e / 40 * 40 + (e / 10) mod 4 * 10 + e mod 10).
      { pose proof (Z.div_mod e 10 ltac:(discriminate)).
        pose proof (Z.div_mod (e / 10) 4 ltac:(discriminate)).
        rewrite Z.div_div in * by lia. change (10 * 4) with 40 in *. lia. }
      unfold region_ElementIndex, layer, subdet, mul32 in H1, H2, H3.
      unfold MAXSUBDETS, MAXLAYERS in H1, H2, H3.
      change (wrap32 (4 * 10)) with 40 in H1.
      apply SubDet_of_Z_inv in H2. lia.
    + intros Hfit. apply fields_of_elementIndex; auto.
      unfold is_uint32 in Hr. lia.
Qed.

Lemma elementIndex_decoders_inverse_witness :
  let e := elementIndex 5 TOB 3 in
  e = 213
  /\ (exists s', subdet e = Some s'
                 /\ elementIndex (region_ElementIndex e) s' (layer e) = e)
  /\ region_ElementIndex e = 5 /\ subdet e = Some TOB /\ layer e = 3.
Proof.
  assert (Hr : is_uint32 5) by (unfold is_uint32, modulus; lia).
  assert (Hs : TOB <> UNKNOWN) by discriminate.
  assert (Hl : 0 <= 3 < MAXLAYERS) by (unfold MAXLAYERS; lia).
  destruct (elementIndex_decoders_inverse 5 TOB 3 Hr Hs Hl) as [Hback Hiff].
  split; [reflexivity|]. split; [exact Hback|].
  apply Hiff. vm_compute. reflexivity.
Defined.

(** C1, the claim as written fails: region 107374183 with TIB and layer 0
    encodes to 24 (the product by 40 wraps modulo 2^32), which decodes to
    region 0. *)
Lemma elementIndex_region_overflow :
  is_uint32 107374183 /\ TIB <> UNKNOWN /\ 0 <= 0 < MAXLAYERS
  /\ elementIndex 107374183 TIB 0 = 24
  /\ region_ElementIndex (elementIndex 107374183 TIB 0) = 0
  /\ region_ElementIndex (elementIndex 107374183 TIB 0) <> 107374183.
Proof.
  repeat split; try reflexivity; try discriminate.
Qed.

(** C10. The decoders are total on 32-bit indices: the layer is below
    MAXLAYERS and the sub-detector is one of TIB, TOB, TID, TEC, never
    UNKNOWN, whether or not the index was produced by [elementIndex]. *)
Theorem decoders_total (index : ElementIndex) :
  is_uint32 index ->
  0 <= layer index < MAXLAYERS
  /\ 0 <= region_ElementIndex index
  /\ exists s, subdet index = Some s
               /\ (s = TIB \/ s = TOB \/ s = TID \/ s = TEC)
               /\ s <> UNKNOWN
               /\ 0 <= (index / MAXLAYERS) mod MAXSUBDETS < 4.
Proof.
  intros Hi. split; [|split].
  - apply Z.mod_pos_bound. reflexivity.
  - unfold region_ElementIndex. apply Z.div_pos; [apply Hi | reflexivity].
  - destruct (subdet_defined index) as (s & Hs & Hu & _).
    exists s. repeat split; auto.
    + destruct s; auto. now elim Hu.
    + apply Z.mod_pos_bound. reflexivity.
    + apply Z.mod_pos_bound. reflexivity.
Qed.

Lemma decoders_total_witness :
  is_uint32 4294967295
  /\ layer 4294967295 = 5
  /\ subdet 4294967295 = Some TOB
  /\ 0 <= layer 4294967295 < MAXLAYERS
  /\ exists s, subdet 4294967295 = Some s /\ s <> UNKNOWN.
Proof.
  assert (Hi : is_uint32 4294967295) by (unfold is_uint32, modulus; lia).
  destruct (decoders_total 4294967295 Hi) as (Hl & _ & s & Hs & _ & Hu & _).
  split; [exact Hi|]. split; [reflexivity|]. split; [reflexivity|].
  split; [exact Hl|]. exists s. split; assumption.
Defined.

(** ** The grid codec and the periodic index *)

Section Grid_properties.

Variable D : Type.
Context {ops : DoubleOps D}.
Variable FedChannelConnection : Type.

Implicit Types c : SiStripRegionCabling D FedChannelConnection.

(** A grid index is valid when both bins are inside the grid. *)
Lemma positionIndex_Region_valid c (r : Region) :
  0 < phidivisions_ c -> 0 <= r < etadivisions_ c * phidivisions_ c ->
  0 <= r / phidivisions_ c < etadivisions_ c
  /\ 0 <= r mod phidivisions_ c < phidivisions_ c.
Proof.
  intros Hp Hr. split.
  - split; [apply Z.div_pos; lia|]. apply Z.div_lt_upper_bound; lia.
  - now apply Z.mod_pos_bound.
Qed.

(** C3. With [phidivisions_ > 0], [region(positionIndex(r)) == r] for every
    32-bit region [r]; [positionIndex(r)] is
    [(r / phidivisions_, r % phidivisions_)], and for [r] below
    [etadivisions_ * phidivisions_] both of its bins are inside the grid. *)
Theorem region_positionIndex_roundtrip c (r : Region) :
  0 < phidivisions_ c -> is_uint32 r ->
  exists index,
    positionIndex_Region c r = Some index
    /\ index = (r / phidivisions_ c, r mod phidivisions_ c)
    /\ region_PositionIndex c index = r
    /\ (r < etadivisions_ c * phidivisions_ c ->
        0 <= fst index < etadivisions_ c
        /\ 0 <= snd index < phidivisions_ c).
Proof.
  intros Hp Hr. eexists. split; [|split; [reflexivity|split]].
  - unfold positionIndex_Region.
    destruct (phidivisions_ c =? 0) eqn:E; [lia | reflexivity].
  - unfold region_PositionIndex, add32, mul32. simpl.
    rewrite wrap32_add_l.
    replace (r / phidivisions_ c * phidivisions_ c + r mod phidivisions_ c)
      with r by (pose proof (Z.div_mod r (phidivisions_ c)); lia).
    now apply wrap32_small.
  - intros Hlt. simpl. apply positionIndex_Region_valid; [assumption|].
    unfold is_uint32 in Hr. lia.
Qed.

(** On an unsigned phi bin the branch [index.second < 0] is never taken:
    the only normalisation is the subtraction of one period. *)
Lemma periodicIndex_unsigned c (eta phi : Z) :
  0 <= phi ->
  fst (periodicIndex c (eta, phi))
  = (eta, if phi >=? phidivisions_ c then sub32 phi (phidivisions_ c)
          else phi).
Proof.
  intros Hphi. unfold periodicIndex. simpl.
  destruct (phi <? 0) eqn:E; [lia|].
  destruct (phi >=? phidivisions_ c);
    now destruct ((eta <? 0) || (eta >=? etadivisions_ c)).
Qed.

Lemma periodicIndex_flag c (index : PositionIndex) :
  snd (periodicIndex c index)
  = negb ((fst index <? 0) || (fst index >=? etadivisions_ c)).
Proof.
  unfold periodicIndex.
  now destruct ((fst index <? 0) || (fst index >=? etadivisions_ c)).
Qed.

Lemma periodicIndex_eta c (index : PositionIndex) :
  fst (fst (periodicIndex c index)) = fst index.
Proof.
  unfold periodicIndex.
  now destruct ((fst index <? 0) || (fst index >=? etadivisions_ c)).
Qed.

(** C2. With [phidivisions_ = 8] and the eta bin in range: a phi bin of 8
    is normalised to 0 and the call returns true; a phi bin of -1, which in
    [uint32_t] is 4294967295, is left at 4294967287 (one period was
    subtracted, none added) and the call returns true. *)
Theorem periodicIndex_phi_wraparound c (eta : Z) :
  phidivisions_ c = 8 -> 0 <= eta < etadivisions_ c ->
  periodicIndex c (eta, 8) = ((eta, 0), true)
  /\ sub32 0 1 = 4294967295
  /\ periodicIndex c (eta, sub32 0 1) = ((eta, 4294967287), true)
  /\ snd (fst (periodicIndex c (eta, sub32 0 1))) <> 7.
Proof.
  intros Hp He.
  assert (Hflag : (eta <? 0) || (eta >=? etadivisions_ c) = false)
    by (apply orb_false_iff; split; lia).
  assert (H8 : periodicIndex c (eta, 8) = ((eta, 0), true))
    by (unfold periodicIndex; simpl; now rewrite Hp, Hflag).
  assert (Hm : periodicIndex c (eta, sub32 0 1) = ((eta, 4294967287), true))
    by (unfold periodicIndex; simpl; now rewrite Hp, Hflag).
  repeat split; try assumption. rewrite Hm. simpl. discriminate.
Qed.

(** C4. [periodicIndex] never changes the eta bin, and it returns false
    exactly when the eta bin of the index is outside [0, etadivisions_);
    an instance with four eta divisions rejects the eta bin 4. *)
Theorem periodicIndex_eta_bound c (index : PositionIndex) :
  let result := periodicIndex c index in
  fst (fst result) = fst index
  /\ (snd result = false <-> ~ 0 <= fst (fst result) < etadivisions_ c)
  /\ (snd result = true <-> 0 <= fst index < etadivisions_ c)
  /\ snd (periodicIndex
            (Build_SiStripRegionCabling 4 (phidivisions_ c) (etamax_ c)
                                        (regioncabling_ c))
            (4, snd index)) = false.
Proof.
  cbv zeta. rewrite periodicIndex_eta, !periodicIndex_flag. simpl.
  split; [reflexivity|]. split; [|split].
  - rewrite negb_false_iff, orb_true_iff. lia.
  - rewrite negb_true_iff, orb_false_iff. lia.
  - reflexivity.
Qed.

(** C9. When the eta bin is out of range and the phi bin is at or above
    [phidivisions_], [periodicIndex] returns false and all the same hands
    back a phi bin reduced by one period; the eta bin is what it was. *)
Theorem periodicIndex_not_atomic c (eta phi : Z) :
  is_uint32 phi -> 0 < phidivisions_ c <= phi ->
  ~ 0 <= eta < etadivisions_ c ->
  periodicIndex c (eta, phi) = ((eta, phi - phidivisions_ c), false)
  /\ snd (fst (periodicIndex c (eta, phi))) <> phi
  /\ fst (fst (periodicIndex c (eta, phi))) = eta.
Proof.
  intros Hphi Hp He.
  assert (Hflag : (eta <? 0) || (eta >=? etadivisions_ c) = true)
    by (apply orb_true_iff; lia).
  assert (Hsub : sub32 phi (phidivisions_ c) = phi - phidivisions_ c)
    by (apply wrap32_small; unfold is_uint32 in *; lia).
  assert (Heq : periodicIndex c (eta, phi)
                = ((eta, phi - phidivisions_ c), false)).
  { unfold periodicIndex. simpl. rewrite Hflag, Hsub.
    destruct (phi >=? phidivisions_ c) eqn:E; [reflexivity | lia]. }
  rewrite Heq. simpl. split; [reflexivity|]. split; [lia | reflexivity].
Qed.

(** C7, in any arithmetic: [position] of a grid index is, in each
    coordinate, the cell width times the bin plus half the cell width, with
    the widths of [regionDimensions]; [position] of a region goes through
    [positionIndex]. *)
Lemma position_formula c (index : PositionIndex) :
  let dEta := fst (regionDimensions c) in
  let dPhi := snd (regionDimensions c) in
  regionDimensions c
  = ((d_of_Z 2 * etamax_ c) / d_of_Z (etadivisions_ c),
     (d_of_Z 2 * d_pi) / d_of_Z (phidivisions_ c))%D
  /\ position_PositionIndex c index
     = (dEta * d_of_Z (fst index) + dEta / d_of_Z 2,
        dPhi * d_of_Z (snd index) + dPhi / d_of_Z 2)%D
  /\ forall r : Region,
       position_Region c r
       = option_map (position_PositionIndex c) (positionIndex_Region c r).
Proof.
  cbv zeta. split; [reflexivity|]. split; [reflexivity|].
  intros r. unfold position_Region.
  now destruct (positionIndex_Region c r).
Qed.

End Grid_properties.

(** ** Loops as list comprehensions *)

Lemma fold_failed {S A : Type} (body : A -> S -> option S) (xs : list A) :
  fold_left (fun acc x => s <- acc ;; body x s) xs None = None.
Proof. induction xs as [|x xs IH]; simpl; auto. Qed.

(** A loop whose body appends the requests of its iteration appends the
    concatenation of all of them, and fails when one iteration fails. *)
Lemma fold_appends {A E : Type} (body : A -> list E -> option (list E))
  (f : A -> option (list E)) (xs : list A) :
  (forall x g, body x g = (r <- f x ;; Some (g ++ r))) ->
  forall g,
    fold_left (fun acc x => s <- acc ;; body x s) xs (Some g)
    = (rs <- traverse f xs ;; Some (g ++ concat rs)).
Proof.
  intros Hbody. induction xs as [|x xs IH]; intros g; simpl.
  - now rewrite app_nil_r.
  - rewrite Hbody. destruct (f x) as [r|]; [|apply fold_failed].
    rewrite IH. destruct (traverse f xs) as [rs|]; [|reflexivity].
    simpl. now rewrite app_assoc.
Qed.

Lemma traverse_app {A B : Type} (f : A -> option B) (xs ys : list A) :
  traverse f (xs ++ ys)
  = (a <- traverse f xs ;; b <- traverse f ys ;; Some (a ++ b)).
Proof.
  induction xs as [|x xs IH]; simpl.
  - now destruct (traverse f ys).
  - destruct (f x); [|reflexivity]. rewrite IH.
    destruct (traverse f xs); [|reflexivity].
    now destruct (traverse f ys).
Qed.

Lemma traverse_map {A B C : Type} (f : B -> option C) (h : A -> B)
  (xs : list A) :
  traverse f (map h xs) = traverse (fun x => f (h x)) xs.
Proof.
  induction xs as [|x xs IH]; simpl; [reflexivity|]. now rewrite IH.
Qed.

Lemma traverse_flat_map {A B E : Type} (f : B -> option (list E))
  (h : A -> list B) (xs : list A) :
  (rss <- traverse (fun x => rs <- traverse f (h x) ;; Some (concat rs)) xs ;;
   Some (concat rss))
  = (rs <- traverse f (flat_map h xs) ;; Some (concat rs)).
Proof.
  induction xs as [|x xs IH]; simpl; [reflexivity|].
  rewrite traverse_app.
  destruct (traverse f (h x)) as [a|]; [|reflexivity].
  destruct (traverse (fun x0 => rs <- traverse f (h x0) ;; Some (concat rs)) xs)
    as [rss|];
    destruct (traverse f (flat_map h xs)) as [b|];
    simpl in *; try congruence.
  rewrite concat_app. congruence.
Qed.

Lemma upto_length (n : Z) : length (upto n) = Z.to_nat n.
Proof. unfold upto. now rewrite length_map, length_seq. Qed.

Lemma upto_spec (n i : Z) : In i (upto n) <-> 0 <= i < n.
Proof.
  unfold upto. rewrite in_map_iff. split.
  - intros (k & <- & Hk). apply in_seq in Hk. lia.
  - intros Hi. exists (Z.to_nat i). split; [lia|]. apply in_seq. lia.
Qed.

Lemma flat_map_rows_length {A B C : Type} (h : A -> B -> C) (xs : list A)
  (ys : list B) :
  length (flat_map (fun x => map (h x) ys) xs)
  = (length xs * length ys)%nat.
Proof.
  induction xs as [|x xs IH]; simpl; [reflexivity|].
  now rewrite length_app, length_map, IH.
Qed.

(** The candidates are exactly the cells
    [(index.first - deta + ieta, index.second - dphi + iphi)], in 32-bit
    arithmetic, for the values that the two loop counters take. *)
Lemma window_candidates_spec (index : PositionIndex) (deta dphi : Z)
  (candidate : PositionIndex) :
  In candidate (window_candidates index deta dphi)
  <-> exists ieta iphi,
        0 <= ieta < add32 (mul32 2 deta) 1
        /\ 0 <= iphi < add32 (mul32 2 dphi) 1
        /\ candidate = (add32 (sub32 (fst index) deta) ieta,
                        add32 (sub32 (snd index) dphi) iphi).
Proof.
  unfold window_candidates. rewrite in_flat_map. split.
  - intros (ieta & Hi & Hin). apply in_map_iff in Hin.
    destruct Hin as (iphi & <- & Hj).
    exists ieta, iphi. rewrite <- !upto_spec. auto.
  - intros (ieta & iphi & Hi & Hj & ->).
    exists ieta. rewrite upto_spec. split; [exact Hi|].
    apply in_map_iff. exists iphi. rewrite upto_spec. auto.
Qed.

(** The loop bound [2 * d + 1] is the mathematical one below 2^31 and
    wraps from there on. *)
Lemma window_bound (d : Z) :
  0 <= d < 2 ^ 31 -> add32 (mul32 2 d) 1 = 2 * d + 1.
Proof.
  intros Hd. unfold add32, mul32. rewrite wrap32_add_l.
  apply wrap32_small. unfold is_uint32, modulus. lia.
Qed.

(** ** The window selectors *)

Section Selector_properties.

Variable D : Type.
Context {ops : DoubleOps D}.
Variable FedChannelConnection : Type.
Variable positionIndex_Position :
  SiStripRegionCabling D FedChannelConnection -> Position D
  -> option PositionIndex.
Variable region_Position :
  SiStripRegionCabling D FedChannelConnection -> Position D -> option Region.

Implicit Types c : SiStripRegionCabling D FedChannelConnection.

Lemma window_cell_requests c (index : PositionIndex) (deta dphi : Z)
  (s : SubDet) (l : Layer) (ieta iphi : Z) (g : RefGetter) :
  window_cell region_Position c index deta dphi s l ieta iphi g
  = (r <- cell_requests region_Position c s l
            (add32 (sub32 (fst index) deta) ieta,
             add32 (sub32 (snd index) dphi) iphi) ;;
     Some (g ++ r)).
Proof.
  unfold window_cell, cell_requests, updateSiStripRefGetter_index.
  destruct (periodicIndex c _) as [normalised [|]]; simpl.
  - now destruct (elementIndex_Position region_Position c _ s l).
  - now rewrite app_nil_r.
Qed.

(** The rectangular selector appends to the getter, in row order, the
    requests of the candidate cells: all the cells of [window_candidates],
    each passed through [periodicIndex], the rejected ones skipped, one
    request for each of the others. *)
Lemma window_is_comprehension c (g : RefGetter) (position : Position D)
  (deltaeta deltaphi : D) (s : SubDet) (l : Layer) :
  updateSiStripRefGetter_window positionIndex_Position region_Position
                                c g position deltaeta deltaphi s l
  = (index <- positionIndex_Position c position ;;
     deta <- d_to_uint32 (deltaeta / fst (regionDimensions c))%D ;;
     dphi <- d_to_uint32 (deltaphi / snd (regionDimensions c))%D ;;
     rs <- traverse (cell_requests region_Position c s l)
                    (window_candidates index deta dphi) ;;
     Some (g ++ concat rs)).
Proof.
  unfold updateSiStripRefGetter_window.
  destruct (positionIndex_Position c position) as [index|]; [|reflexivity].
  destruct (d_to_uint32 _) as [deta|]; [|reflexivity].
  destruct (d_to_uint32 _) as [dphi|]; [|reflexivity].
  unfold for_uint32, window_candidates.
  set (cell := cell_requests region_Position c s l).
  set (row := fun ieta : Z =>
                map (fun iphi => (add32 (sub32 (fst index) deta) ieta,
                                  add32 (sub32 (snd index) dphi) iphi))
                    (upto (add32 (mul32 2 dphi) 1))).
  set (row_requests := fun ieta => rs <- traverse cell (row ieta) ;;
                                   Some (concat rs)).
  transitivity (r <- (rs <- traverse cell
                              (flat_map row (upto (add32 (mul32 2 deta) 1))) ;;
                      Some (concat rs)) ;;
                Some (g ++ r)).
  - rewrite <- traverse_flat_map. fold row_requests.
    rewrite (fold_appends _ row_requests).
    + now destruct (traverse row_requests _).
    + intros ieta g'. unfold row_requests, row. rewrite traverse_map.
      rewrite (fold_appends _ _ _
                 (window_cell_requests c index deta dphi s l ieta)).
      now destruct (traverse _ (upto (add32 (mul32 2 dphi) 1))).
  - now destruct (traverse cell _).
Qed.

Lemma window_candidates_length (index : PositionIndex) (deta dphi : Z) :
  length (window_candidates index deta dphi)
  = (Z.to_nat (add32 (mul32 2 deta) 1) * Z.to_nat (add32 (mul32 2 dphi) 1))%nat.
Proof.
  unfold window_candidates.
  rewrite flat_map_rows_length, !upto_length. reflexivity.
Qed.

(** The requests are not deduplicated: there are as many as candidates
    accepted by [periodicIndex]. *)
Lemma window_requests_count c (s : SubDet) (l : Layer)
  (cands : list PositionIndex) (rs : list (list ElementIndex)) :
  traverse (cell_requests region_Position c s l) cands = Some rs ->
  length (concat rs)
  = length (filter (fun cand => snd (periodicIndex c cand)) cands).
Proof.
  revert rs. induction cands as [|cand cands IH]; intros rs; simpl.
  - now intros [= <-].
  - unfold cell_requests at 1.
    destruct (periodicIndex c cand) as [normalised [|]]; simpl.
    + destruct (elementIndex_Position region_Position c _ s l);
        [|discriminate].
      destruct (traverse _ cands) as [rs'|]; [|discriminate].
      intros [= <-]. simpl. now rewrite (IH rs').
    + destruct (traverse _ cands) as [rs'|]; [|discriminate].
      intros [= <-]. simpl. now rewrite (IH rs').
Qed.

End Selector_properties.

(** ** What a call does to the instance *)

Section Member_frame.

Variable D : Type.
Context {ops : DoubleOps D}.
Variable FedChannelConnection : Type.
Variable positionIndex_Position_member :
  Position D -> Member D FedChannelConnection (option PositionIndex).
Variable region_Position_member :
  Position D -> Member D FedChannelConnection (option Region).
Variable subdetFromDetId : Z -> SubDet.
Variable layerFromDetId : Z -> Z.

(** The two members of SiStripRegionCabling.cc are declared [const]: they
    are taken to hand the instance back. *)
Hypothesis positionIndex_Position_const :
  forall position c, snd (positionIndex_Position_member position c) = c.
Hypothesis region_Position_const :
  forall position c, snd (region_Position_member position c) = c.

Implicit Types c : SiStripRegionCabling D FedChannelConnection.

(** What the two members return, as functions of the instance. *)
Local Notation "'positionIndex_Position'" :=
  (fun c position => fst (positionIndex_Position_member position c))
  (only parsing).
Local Notation "'region_Position'" :=
  (fun c position => fst (region_Position_member position c))
  (only parsing).

Lemma positionIndex_Position_reads (position : Position D) :
  reads (fun c => positionIndex_Position c position)
        (positionIndex_Position_member position).
Proof.
  intros c. rewrite <- (positionIndex_Position_const position c) at 3.
  apply surjective_pairing.
Qed.

Lemma region_Position_reads (position : Position D) :
  reads (fun c => region_Position c position)
        (region_Position_member position).
Proof.
  intros c. rewrite <- (region_Position_const position c) at 3.
  apply surjective_pairing.
Qed.

Lemma regionDimensions_reads :
  reads (@regionDimensions D ops FedChannelConnection)
        regionDimensions_member.
Proof. intros c. reflexivity. Qed.

Lemma position_PositionIndex_reads (index : PositionIndex) :
  reads (fun c => position_PositionIndex c index)
        (position_PositionIndex_member index).
Proof. intros c. reflexivity. Qed.

Lemma positionIndex_Region_reads (region : Region) :
  reads (fun c => positionIndex_Region c region)
        (positionIndex_Region_member region).
Proof. intros c. reflexivity. Qed.

Lemma position_Region_reads (region : Region) :
  reads (fun c => position_Region c region)
        (position_Region_member region).
Proof.
  intros c. unfold position_Region_member, position_Region, bind.
  rewrite positionIndex_Region_reads.
  now destruct (positionIndex_Region c region).
Qed.

Lemma region_PositionIndex_reads (index : PositionIndex) :
  reads (fun c => region_PositionIndex c index)
        (region_PositionIndex_member index).
Proof. intros c. reflexivity. Qed.

Lemma periodicIndex_reads (index : PositionIndex) :
  reads (fun c => periodicIndex c index) (periodicIndex_member index).
Proof.
  intros c. unfold periodicIndex_member, periodicIndex, bind, read, ret.
  now destruct ((fst index <? 0) || (fst index >=? etadivisions_ c)).
Qed.

Lemma elementIndex_Position_reads (position : Position D) (s : SubDet)
  (l : Layer) :
  reads (fun c => elementIndex_Position region_Position c position s l)
        (elementIndex_Position_member region_Position_member position s l).
Proof.
  intros c. unfold elementIndex_Position_member, elementIndex_Position, bind.
  now rewrite region_Position_reads.
Qed.

Lemma window_cell_reads (index : PositionIndex) (deta dphi : Z) (s : SubDet)
  (l : Layer) (ieta iphi : Z) (g : RefGetter) :
  reads (fun c => window_cell region_Position c index deta dphi s l
                              ieta iphi g)
        (window_cell_member region_Position_member index deta dphi s l
                            ieta iphi g).
Proof.
  intros c. unfold window_cell_member, window_cell, bind.
  rewrite periodicIndex_reads.
  destruct (periodicIndex c _) as [normalised [|]]; simpl; [|reflexivity].
  rewrite elementIndex_Position_reads.
  now destruct (elementIndex_Position _ c _ s l).
Qed.

Lemma fold_member_reads {S : Type}
  (body : Z -> S -> Member D FedChannelConnection (option S))
  (f : SiStripRegionCabling D FedChannelConnection -> Z -> S -> option S)
  (xs : list Z) :
  (forall i s, reads (fun c => f c i s) (body i s)) ->
  forall (pure : SiStripRegionCabling D FedChannelConnection -> option S)
         (acc : Member D FedChannelConnection (option S)),
    reads pure acc ->
    reads (fun c => fold_left (fun a i => s <- a ;; f c i s) xs (pure c))
          (fold_left (fun (a : Member D FedChannelConnection (option S)) i =>
                        bind a (fun s => match s with
                                         | Some s' => body i s'
                                         | None => ret None
                                         end))
                     xs acc).
Proof.
  intros Hbody. induction xs as [|i xs IH]; intros pure acc Hacc; simpl.
  - exact Hacc.
  - apply (IH (fun c => s <- pure c ;; f c i s)).
    intros c. unfold bind. rewrite Hacc.
    destruct (pure c) as [s|]; [apply Hbody | reflexivity].
Qed.

(** A loop whose body only reads the instance only reads the instance, and
    computes what the loop over the results computes. *)
Lemma for_member_reads {S : Type} (bound : Z)
  (body : Z -> S -> Member D FedChannelConnection (option S))
  (f : SiStripRegionCabling D FedChannelConnection -> Z -> S -> option S)
  (init : S) :
  (forall i s, reads (fun c => f c i s) (body i s)) ->
  reads (fun c => for_uint32 bound (f c) init) (for_member bound body init).
Proof.
  intros Hbody. unfold for_member, for_uint32.
  apply (fold_member_reads body f (upto bound) Hbody (fun _ => Some init)).
  intros c. reflexivity.
Qed.

Lemma updateSiStripRefGetter_window_reads (g : RefGetter)
  (position : Position D) (deltaeta deltaphi : D) (s : SubDet) (l : Layer) :
  reads (fun c => updateSiStripRefGetter_window
                    positionIndex_Position region_Position
                    c g position deltaeta deltaphi s l)
        (updateSiStripRefGetter_window_member
           positionIndex_Position_member region_Position_member
           g position deltaeta deltaphi s l).
Proof.
  intros c.
  unfold updateSiStripRefGetter_window_member, updateSiStripRefGetter_window,
    bind.
  rewrite positionIndex_Position_reads.
  destruct (fst (positionIndex_Position_member position c)) as [index|];
    [|reflexivity].
  rewrite regionDimensions_reads.
  destruct (d_to_uint32 (deltaeta / fst (regionDimensions c))%D) as [deta|];
    [|reflexivity].
  rewrite regionDimensions_reads.
  destruct (d_to_uint32 (deltaphi / snd (regionDimensions c))%D) as [dphi|];
    [|reflexivity].
  apply (for_member_reads _ _
           (fun c' ieta g' =>
              for_uint32 (add32 (mul32 2 dphi) 1)
                (fun iphi => window_cell region_Position c' index deta dphi
                                         s l ieta iphi) g')).
  intros ieta g'.
  apply (for_member_reads _ _
           (fun c' iphi g'' => window_cell region_Position c' index deta dphi
                                           s l ieta iphi g'')).
  intros iphi g''. apply window_cell_reads.
Qed.

Lemma updateSiStripRefGetter_cone_reads (g : RefGetter)
  (position : Position D) (dR : D) (s : SubDet) (l : Layer) :
  reads (fun c => updateSiStripRefGetter_cone
                    positionIndex_Position region_Position
                    c g position dR s l)
        (updateSiStripRefGetter_cone_member
           positionIndex_Position_member region_Position_member
           g position dR s l).
Proof. apply updateSiStripRefGetter_window_reads. Qed.

Lemma copy_assignment_copies c
  (other : SiStripRegionCabling D FedChannelConnection) :
  snd (copy_assignment other c) = other.
Proof. now destruct other. Qed.

Local Notation "'call'" :=
  (invoke positionIndex_Position_member region_Position_member
          subdetFromDetId layerFromDetId) (only parsing).

(** C8 (as amended). [getRegionCabling] after [setRegionCabling t] returns
    [t], and [setRegionCabling] keeps the three grid parameters; the
    implicit copy assignment makes the instance equal to its argument, grid
    parameters included; and every other call of the public interface,
    the two members of SiStripRegionCabling.cc being [const] as declared,
    hands back the instance it was given, all four data members
    unchanged. *)
Theorem only_assignments_modify c :
  (forall t : Cabling FedChannelConnection,
     fst (call call_getRegionCabling
               (snd (call (call_setRegionCabling t) c))) = t
     /\ etadivisions_ (snd (call (call_setRegionCabling t) c))
        = etadivisions_ c
     /\ phidivisions_ (snd (call (call_setRegionCabling t) c))
        = phidivisions_ c
     /\ etamax_ (snd (call (call_setRegionCabling t) c)) = etamax_ c)
  /\ (forall other : SiStripRegionCabling D FedChannelConnection,
        snd (call (call_copy_assignment other) c) = other)
  /\ (forall (A : Type) (m : Call D FedChannelConnection A),
        assigns m = true \/ snd (call m c) = c).
Proof.
  split; [|split].
  - intros t. repeat split.
  - intros other. apply copy_assignment_copies.
  - intros A m. destruct m; try (left; reflexivity); right; unfold invoke;
      try reflexivity.
    + now rewrite position_Region_reads.
    + apply positionIndex_Position_const.
    + apply region_Position_const.
    + now rewrite elementIndex_Position_reads.
    + now rewrite updateSiStripRefGetter_window_reads.
    + now rewrite updateSiStripRefGetter_cone_reads.
Qed.

End Member_frame.

Lemma only_assignments_modify_witness :
  (forall position c,
     snd (positionIndex_Position_spec_member position c) = c)
  /\ (forall position c, snd (region_Position_spec_member position c) = c)
  /\ fst (invoke positionIndex_Position_spec_member
                 region_Position_spec_member
                 (fun _ => UNKNOWN) (fun _ => 0)
                 call_getRegionCabling
                 (snd (invoke positionIndex_Position_spec_member
                              region_Position_spec_member
                              (fun _ => UNKNOWN) (fun _ => 0)
                              (call_setRegionCabling [[]]) grid_4x8)))
     = [[]]
  /\ snd (invoke positionIndex_Position_spec_member
                 region_Position_spec_member
                 (fun _ => UNKNOWN) (fun _ => 0)
                 (call_updateSiStripRefGetter_window
                    [] (2.5, 2.5)%float 1%float 1.5%float TIB 0)
                 grid_4x6)
     = grid_4x6.
Proof.
  assert (H1 : forall position c,
             snd (positionIndex_Position_spec_member position c) = c)
    by (intros position c; reflexivity).
  assert (H2 : forall position c,
             snd (region_Position_spec_member position c) = c)
    by (intros position c; reflexivity).
  split; [exact H1|]. split; [exact H2|]. split.
  - exact (proj1 (proj1 (only_assignments_modify
                           float unit _ _ (fun _ => UNKNOWN) (fun _ => 0)
                           H1 H2 grid_4x8) [[]])).
  - destruct (proj2 (proj2 (only_assignments_modify
                              float unit _ _ (fun _ => UNKNOWN) (fun _ => 0)
                              H1 H2 grid_4x6))
                    _ (call_updateSiStripRefGetter_window
                         [] (2.5, 2.5)%float 1%float 1.5%float TIB 0))
      as [Habsurd | Hframe]; [discriminate Habsurd | exact Hframe].
Defined.

(** C8, the claim as written fails: the implicit copy assignment is a
    public operation that is neither construction nor [setRegionCabling],
    and it changes the grid parameters; assigning the 4 x 6 grid to the
    4 x 8 grid leaves six phi divisions where there were eight. *)
Lemma copy_assignment_modifies :
  phidivisions_ grid_4x8 = 8
  /\ assigns (call_copy_assignment grid_4x6) = true
  /\ phidivisions_
       (snd (invoke positionIndex_Position_spec_member
                    region_Position_spec_member
                    (fun _ => UNKNOWN) (fun _ => 0)
                    (call_copy_assignment grid_4x6) grid_4x8)) = 6
  /\ snd (invoke positionIndex_Position_spec_member
                 region_Position_spec_member
                 (fun _ => UNKNOWN) (fun _ => 0)
                 (call_copy_assignment grid_4x6) grid_4x8)
     <> grid_4x8.
Proof.
  split; [reflexivity|]. split; [reflexivity|]. split; [reflexivity|].
  simpl. intros H. apply (f_equal phidivisions_) in H. discriminate H.
Qed.

(** ** Concrete grids *)

Lemma region_positionIndex_roundtrip_witness :
  0 < phidivisions_ grid_4x8 /\ is_uint32 23
  /\ exists index,
       positionIndex_Region grid_4x8 23 = Some index
       /\ index = (23 / phidivisions_ grid_4x8, 23 mod phidivisions_ grid_4x8)
       /\ region_PositionIndex grid_4x8 index = 23
       /\ (23 < etadivisions_ grid_4x8 * phidivisions_ grid_4x8 ->
           0 <= fst index < etadivisions_ grid_4x8
           /\ 0 <= snd index < phidivisions_ grid_4x8).
Proof.
  assert (Hp : 0 < phidivisions_ grid_4x8) by reflexivity.
  assert (Hr : is_uint32 23) by (unfold is_uint32, modulus; lia).
  split; [exact Hp|]. split; [exact Hr|].
  exact (region_positionIndex_roundtrip _ _ grid_4x8 23 Hp Hr).
Defined.

Lemma periodicIndex_phi_wraparound_witness :
  phidivisions_ grid_4x8 = 8 /\ 0 <= 0 < etadivisions_ grid_4x8
  /\ periodicIndex grid_4x8 (0, 8) = ((0, 0), true)
  /\ periodicIndex grid_4x8 (0, 4294967295) = ((0, 4294967287), true).
Proof.
  assert (Hp : phidivisions_ grid_4x8 = 8) by reflexivity.
  assert (He : 0 <= 0 < etadivisions_ grid_4x8) by (simpl; lia).
  destruct (periodicIndex_phi_wraparound _ _ grid_4x8 0 Hp He)
    as (H8 & Hm1 & Hm & _).
  rewrite Hm1 in Hm.
  split; [exact Hp|]. split; [exact He|]. split; [exact H8 | exact Hm].
Defined.

Lemma periodicIndex_not_atomic_witness :
  is_uint32 8 /\ 0 < phidivisions_ grid_4x8 <= 8
  /\ ~ 0 <= 4 < etadivisions_ grid_4x8
  /\ periodicIndex grid_4x8 (4, 8) = ((4, 0), false).
Proof.
  assert (Hphi : is_uint32 8) by (unfold is_uint32, modulus; lia).
  assert (Hp : 0 < phidivisions_ grid_4x8 <= 8) by (simpl; lia).
  assert (He : ~ 0 <= 4 < etadivisions_ grid_4x8) by (simpl; lia).
  destruct (periodicIndex_not_atomic _ _ grid_4x8 4 8 Hphi Hp He)
    as (Heq & _).
  split; [exact Hphi|]. split; [exact Hp|]. split; [exact He|]. exact Heq.
Defined.

(** ** Positions *)

(** In exact arithmetic the position of a grid index is as far from the
    lower edge of its cell as from the upper edge. *)
Lemma position_equidistant (w : R) (bin : Z) :
  let x := (w * IZR bin + w / 2)%R in
  (x - w * IZR bin = w * IZR (bin + 1) - x)%R.
Proof. cbv zeta. rewrite plus_IZR. lra. Qed.

(** C7. [position] of a grid index [(eta_bin, phi_bin)] is
    [(dEta * eta_bin + dEta / 2, dPhi * phi_bin + dPhi / 2)] with
    [(dEta, dPhi) = regionDimensions() =
     (2 * etamax_ / etadivisions_, 2 * pi / phidivisions_)], and [position]
    of a region is [position] of its [positionIndex]; in exact arithmetic
    that point is the centre of the cell, equidistant from the edges
    [dEta * eta_bin] and [dEta * (eta_bin + 1)], and likewise in phi. *)
Theorem position_is_cell_center :
  (forall (D : Type) (ops : DoubleOps D) (FedChannelConnection : Type)
          (c : SiStripRegionCabling D FedChannelConnection)
          (index : PositionIndex),
     let dEta := fst (regionDimensions c) in
     let dPhi := snd (regionDimensions c) in
     regionDimensions c
     = ((d_of_Z 2 * etamax_ c) / d_of_Z (etadivisions_ c),
        (d_of_Z 2 * d_pi) / d_of_Z (phidivisions_ c))%D
     /\ position_PositionIndex c index
        = (dEta * d_of_Z (fst index) + dEta / d_of_Z 2,
           dPhi * d_of_Z (snd index) + dPhi / d_of_Z 2)%D
     /\ forall r : Region,
          position_Region c r
          = option_map (position_PositionIndex c) (positionIndex_Region c r))
  /\ (forall (FedChannelConnection : Type)
             (c : SiStripRegionCabling R FedChannelConnection)
             (eta_bin phi_bin : Z),
        let dEta := fst (regionDimensions c) in
        let dPhi := snd (regionDimensions c) in
        let p := position_PositionIndex c (eta_bin, phi_bin) in
        dEta = (2 * etamax_ c / IZR (etadivisions_ c))%R
        /\ dPhi = (2 * PI / IZR (phidivisions_ c))%R
        /\ (fst p - dEta * IZR eta_bin
            = dEta * IZR (eta_bin + 1) - fst p)%R
        /\ (snd p - dPhi * IZR phi_bin
            = dPhi * IZR (phi_bin + 1) - snd p)%R).
Proof.
  split.
  - intros D ops FedChannelConnection c index.
    exact (position_formula D FedChannelConnection c index).
  - intros FedChannelConnection c eta_bin phi_bin. cbv zeta.
    split; [reflexivity|]. split; [reflexivity|].
    split; simpl; apply position_equidistant.
Qed.

(** In binary64, on the 4 x 6 grid of cell widths 1 and pi/3. *)
Example position_binary64 :
  regionDimensions grid_4x6 = (1, 0x1.0c152382d7365p+0)%float
  /\ position_PositionIndex grid_4x6 (2, 2)
     = (2.5, 0x1.4f1a6c638d03ep+1)%float
  /\ position_Region grid_4x6 14 = Some (2.5, 0x1.4f1a6c638d03ep+1)%float.
Proof. vm_compute. repeat split. Qed.

(** ** The conical selector *)

Lemma conical_halfwidth_exact (dR : R) :
  (d_of_Z 1 / d_sqrt (d_of_Z 2) * dR * dR)%D = conical_halfwidth_spec dR.
Proof. unfold conical_halfwidth_spec. simpl. unfold Rdiv. ring. Qed.

Lemma conical_halfwidth_binary64_1 :
  (d_of_Z 1 / d_sqrt (d_of_Z 2) * 1%float * 1%float)%D
  = (1 / PrimFloat.sqrt 2)%float.
Proof. vm_compute. reflexivity. Qed.

Lemma conical_halfwidth_spec_binary64_1 :
  conical_halfwidth_spec 1%float = (1 / PrimFloat.sqrt 2)%float.
Proof. vm_compute. reflexivity. Qed.

Lemma conical_halfwidth_binary64_2 :
  (d_of_Z 1 / d_sqrt (d_of_Z 2) * 2%float * 2%float)%D
  = conical_halfwidth_spec 2%float.
Proof. vm_compute. reflexivity. Qed.

(** C6 (as amended). In any arithmetic, binary64 included, the conical
    selector is the rectangular selector called with the same position,
    sub-detector and layer and with both half-widths equal to
    [1 / sqrt 2 * dR * dR], taken left to right. In exact arithmetic that
    half-width is [dR^2 / sqrt 2] for every [dR], so there the conical
    selector is the reduction the specification describes; in binary64,
    [dR = 1.0] gives the half-widths [1 / sqrt 2] on both axes, and at
    [dR = 1.0] and [dR = 2.0] the selector is that reduction. *)
Theorem cone_is_window_with_equal_halfwidths :
  (forall (D : Type) (ops : DoubleOps D) (FedChannelConnection : Type)
          positionIndex_Position region_Position
          (c : SiStripRegionCabling D FedChannelConnection)
          (g : RefGetter) (p : Position D) (dR : D) (s : SubDet) (l : Layer),
     updateSiStripRefGetter_cone positionIndex_Position region_Position
                                 c g p dR s l
     = updateSiStripRefGetter_window positionIndex_Position region_Position
         c g p (d_of_Z 1 / d_sqrt (d_of_Z 2) * dR * dR)%D
         (d_of_Z 1 / d_sqrt (d_of_Z 2) * dR * dR)%D s l)
  /\ (forall (FedChannelConnection : Type)
             positionIndex_Position region_Position
             (c : SiStripRegionCabling R FedChannelConnection)
             (g : RefGetter) (p : Position R) (dR : R) (s : SubDet)
             (l : Layer),
        (1 / sqrt 2 * dR * dR = dR ^ 2 / sqrt 2)%R
        /\ updateSiStripRefGetter_cone positionIndex_Position region_Position
                                       c g p dR s l
           = updateSiStripRefGetter_cone_spec
               positionIndex_Position region_Position c g p dR s l)
  /\ (forall (FedChannelConnection : Type)
             positionIndex_Position region_Position
             (c : SiStripRegionCabling float FedChannelConnection)
             (g : RefGetter) (p : Position float) (s : SubDet) (l : Layer),
        updateSiStripRefGetter_cone positionIndex_Position region_Position
                                    c g p 1%float s l
        = updateSiStripRefGetter_window positionIndex_Position region_Position
            c g p (1 / PrimFloat.sqrt 2)%float (1 / PrimFloat.sqrt 2)%float
            s l
        /\ updateSiStripRefGetter_cone positionIndex_Position region_Position
                                       c g p 1%float s l
           = updateSiStripRefGetter_cone_spec
               positionIndex_Position region_Position c g p 1%float s l
        /\ updateSiStripRefGetter_cone positionIndex_Position region_Position
                                       c g p 2%float s l
           = updateSiStripRefGetter_cone_spec
               positionIndex_Position region_Position c g p 2%float s l).
Proof.
  split; [reflexivity|]. split.
  - intros FedChannelConnection pI rP c g p dR s l. split.
    + unfold Rdiv. ring.
    + unfold updateSiStripRefGetter_cone, updateSiStripRefGetter_cone_spec.
      now rewrite conical_halfwidth_exact.
  - intros FedChannelConnection pI rP c g p s l.
    unfold updateSiStripRefGetter_cone, updateSiStripRefGetter_cone_spec.
    rewrite conical_halfwidth_binary64_1, conical_halfwidth_spec_binary64_1,
      conical_halfwidth_binary64_2.
    repeat split.
Qed.

(** C6, the claim as written fails in binary64: at [dR = 0.1] the
    half-width that the header computes is one unit in the last place
    below [dR * dR / sqrt 2]; on a grid whose eta cells have exactly the
    latter width the first converts to 0 bins and the second to 1, and
    the conical selector registers one request where the reduction of the
    specification registers two. *)
Lemma cone_differs_from_spec_binary64 :
  let dR := 0x1.999999999999ap-4%float in
  let position := position_PositionIndex grid_fine (1, 2) in
  (d_of_Z 1 / d_sqrt (d_of_Z 2) * dR * dR)%D <> conical_halfwidth_spec dR
  /\ d_to_uint32 ((d_of_Z 1 / d_sqrt (d_of_Z 2) * dR * dR)
                  / fst (regionDimensions grid_fine))%D = Some 0
  /\ d_to_uint32 (conical_halfwidth_spec dR
                  / fst (regionDimensions grid_fine))%D = Some 1
  /\ updateSiStripRefGetter_cone
       positionIndex_Position_spec region_Position_spec
       grid_fine [] position dR TIB 0 = Some [33880]
  /\ updateSiStripRefGetter_cone_spec
       positionIndex_Position_spec region_Position_spec
       grid_fine [] position dR TIB 0 = Some [40; 33880]
  /\ updateSiStripRefGetter_cone
       positionIndex_Position_spec region_Position_spec
       grid_fine [] position dR TIB 0
     <> updateSiStripRefGetter_cone_spec
          positionIndex_Position_spec region_Position_spec
          grid_fine [] position dR TIB 0.
Proof.
  cbv zeta.
  assert (Hcode : updateSiStripRefGetter_cone
                    positionIndex_Position_spec region_Position_spec
                    grid_fine [] (position_PositionIndex grid_fine (1, 2))
                    0x1.999999999999ap-4%float TIB 0 = Some [33880])
    by (vm_compute; reflexivity).
  assert (Hspec : updateSiStripRefGetter_cone_spec
                    positionIndex_Position_spec region_Position_spec
                    grid_fine [] (position_PositionIndex grid_fine (1, 2))
                    0x1.999999999999ap-4%float TIB 0 = Some [40; 33880])
    by (vm_compute; reflexivity).
  split; [|split; [|split; [|split; [|split]]]].
  - intros H. apply (f_equal Prim2SF) in H. vm_compute in H. discriminate H.
  - vm_compute. reflexivity.
  - vm_compute. reflexivity.
  - exact Hcode.
  - exact Hspec.
  - rewrite Hcode, Hspec. discriminate.
Qed.

(** In binary64 the order of the operations shows in the last place: at
    [dR = 0.1] the product [1 / sqrt 2 * dR * dR], taken left to right as
    the header does, and the quotient [dR * dR / sqrt 2] are neighbouring
    numbers. *)
Remark conical_halfwidth_binary64_rounding :
  let dR := 0x1.999999999999ap-4%float in
  (d_of_Z 1 / d_sqrt (d_of_Z 2) * dR * dR)%D = 0x1.cf68d4fff04ddp-8%float
  /\ conical_halfwidth_spec dR = 0x1.cf68d4fff04dep-8%float.
Proof. vm_compute. split; reflexivity. Qed.

(** ** The rectangular selector on the 4 x 6 grid *)

(** C5. On the 4 x 6 grid, centre (2.5, 2.5) (the cell (2, 2)), half-widths
    1.0 and 1.5, TIB, layer 0, with [positionIndex(Position)] and
    [region(Position)] as the specification describes them: the selector
    forms the nine candidates (1,1) ... (3,3), [periodicIndex] accepts each
    of them unchanged, and nine requests are registered; but each request
    carries the element index of the region that contains the point whose
    coordinates are the candidate's bin numbers ([Position(indextemp)]),
    not the element index of the candidate, which [position(indextemp)],
    the centre of the candidate, would have given. *)
Theorem window_requests_misaddressed :
  let c := grid_4x6 in
  let candidates := window_candidates (2, 2) 1 1 in
  positionIndex_Position_spec c (2.5, 2.5)%float = Some (2, 2)
  /\ d_to_uint32 (1 / fst (regionDimensions c))%float = Some 1
  /\ d_to_uint32 (1.5 / snd (regionDimensions c))%float = Some 1
  /\ candidates
     = [(1, 1); (1, 2); (1, 3); (2, 1); (2, 2); (2, 3); (3, 1); (3, 2); (3, 3)]
  /\ map (periodicIndex c) candidates
     = map (fun candidate => (candidate, true)) candidates
  /\ updateSiStripRefGetter_window
       positionIndex_Position_spec region_Position_spec
       c [] (2.5, 2.5)%float 1%float 1.5%float TIB 0
     = Some [240; 280; 320; 480; 520; 560; 720; 760; 800]
  /\ map (fun candidate => elementIndex (region_PositionIndex c candidate)
                                        TIB 0) candidates
     = [280; 320; 360; 520; 560; 600; 760; 800; 840]
  /\ map (fun candidate =>
            elementIndex_Position region_Position_spec c
              (position_PositionIndex c candidate) TIB 0) candidates
     = map Some [280; 320; 360; 520; 560; 600; 760; 800; 840]
  /\ map (fun candidate =>
            region_Position_spec c (Position_of_PositionIndex candidate))
         candidates
     = map Some [6; 7; 8; 12; 13; 14; 18; 19; 20].
Proof. vm_compute. repeat split. Qed.

(** The same window one phi bin from the seam: the candidates of phi bin
    -1 reach [periodicIndex] as 4294967295 and leave it as 4294967289. *)
Example window_below_phi_zero :
  let c := grid_4x6 in
  window_candidates (2, 0) 0 1 = [(2, 4294967295); (2, 0); (2, 1)]
  /\ map (periodicIndex c) (window_candidates (2, 0) 0 1)
     = [((2, 4294967289), true); ((2, 0), true); ((2, 1), true)].
Proof. vm_compute. repeat split. Qed.

(** * Further properties of the codecs *)

(** ** Element indices as slots of a flat table *)

(** X1. Without overflow, the element indices of region [r] are the block
    of [MAXSUBDETS * MAXLAYERS] consecutive numbers that starts at
    [r * MAXSUBDETS * MAXLAYERS], and inside the block the sub-detector
    [s] owns the [MAXLAYERS] numbers that start at offset
    [s * MAXLAYERS]. *)
Theorem elementIndex_block (r : Region) (s : SubDet) (l : Layer) :
  0 <= r -> s <> UNKNOWN -> 0 <= l < MAXLAYERS ->
  (r + 1) * (MAXSUBDETS * MAXLAYERS) <= modulus ->
  r * (MAXSUBDETS * MAXLAYERS) + SubDet_to_Z s * MAXLAYERS
    <= elementIndex r s l
    < r * (MAXSUBDETS * MAXLAYERS) + (SubDet_to_Z s + 1) * MAXLAYERS
  /\ elementIndex r s l < (r + 1) * (MAXSUBDETS * MAXLAYERS).
Proof.
  intros Hr Hs Hl Hfit.
  pose proof (SubDet_to_Z_defined s Hs) as Hz.
  unfold MAXSUBDETS, MAXLAYERS in *.
  rewrite elementIndex_closed_form, wrap32_small
    by (unfold is_uint32; lia).
  lia.
Qed.

Lemma elementIndex_block_witness :
  0 <= 3 /\ TID <> UNKNOWN /\ 0 <= 7 < MAXLAYERS
  /\ (3 + 1) * (MAXSUBDETS * MAXLAYERS) <= modulus
  /\ 3 * (MAXSUBDETS * MAXLAYERS) + SubDet_to_Z TID * MAXLAYERS
       <= elementIndex 3 TID 7
       < 3 * (MAXSUBDETS * MAXLAYERS) + (SubDet_to_Z TID + 1) * MAXLAYERS
  /\ elementIndex 3 TID 7 < (3 + 1) * (MAXSUBDETS * MAXLAYERS).
Proof.
  assert (Hr : 0 <= 3) by lia.
  assert (Hs : TID <> UNKNOWN) by discriminate.
  assert (Hl : 0 <= 7 < MAXLAYERS) by (unfold MAXLAYERS; lia).
  assert (Hfit : (3 + 1) * (MAXSUBDETS * MAXLAYERS) <= modulus)
    by (vm_compute; discriminate).
  split; [exact Hr|]. split; [exact Hs|]. split; [exact Hl|].
  split; [exact Hfit|].
  exact (elementIndex_block 3 TID 7 Hr Hs Hl Hfit).
Defined.

(** X2. Without overflow, two triples of a region, a sub-detector other
    than UNKNOWN and a layer below MAXLAYERS that have the same element
    index are the same triple. *)
Theorem elementIndex_injective (r r' : Region) (s s' : SubDet)
  (l l' : Layer) :
  0 <= r -> s <> UNKNOWN -> 0 <= l < MAXLAYERS ->
  r * 40 + SubDet_to_Z s * 10 + l < modulus ->
  0 <= r' -> s' <> UNKNOWN -> 0 <= l' < MAXLAYERS ->
  r' * 40 + SubDet_to_Z s' * 10 + l' < modulus ->
  elementIndex r s l = elementIndex r' s' l' ->
  r = r' /\ s = s' /\ l = l'.
Proof.
  intros Hr Hs Hl Hfit Hr' Hs' Hl' Hfit' Heq.
  destruct (fields_of_elementIndex r s l Hr Hs Hl Hfit) as (H1 & H2 & H3).
  destruct (fields_of_elementIndex r' s' l' Hr' Hs' Hl' Hfit')
    as (H1' & H2' & H3').
  rewrite Heq in H1, H2, H3. repeat split; congruence.
Qed.

Lemma elementIndex_injective_witness :
  elementIndex 2 TEC 9 = elementIndex 2 TEC 9
  /\ (2 = 2 /\ TEC = TEC /\ 9 = 9).
Proof.
  split; [reflexivity|].
  apply (elementIndex_injective 2 2 TEC TEC 9 9);
    try discriminate; try reflexivity;
    unfold MAXLAYERS; try lia; vm_compute; reflexivity.
Defined.

(** X3. The enumerator UNKNOWN has the value MAXSUBDETS, so it does not
    survive the encoding: without overflow the element index of
    [(r, UNKNOWN, l)] is that of [(r + 1, TIB, l)], and it decodes to
    region [r + 1] and sub-detector TIB. *)
Theorem elementIndex_UNKNOWN_aliases (r : Region) (l : Layer) :
  0 <= r -> 0 <= l < MAXLAYERS -> (r + 1) * 40 + l < modulus ->
  elementIndex r UNKNOWN l = elementIndex (r + 1) TIB l
  /\ region_ElementIndex (elementIndex r UNKNOWN l) = r + 1
  /\ subdet (elementIndex r UNKNOWN l) = Some TIB
  /\ layer (elementIndex r UNKNOWN l) = l.
Proof.
  intros Hr Hl Hfit.
  assert (Heq : elementIndex r UNKNOWN l = elementIndex (r + 1) TIB l).
  { rewrite !elementIndex_closed_form. f_equal. simpl. lia. }
  split; [exact Heq|]. rewrite Heq.
  apply fields_of_elementIndex; try discriminate; simpl; lia.
Qed.

Lemma elementIndex_UNKNOWN_aliases_witness :
  0 <= 5 /\ 0 <= 3 < MAXLAYERS /\ (5 + 1) * 40 + 3 < modulus
  /\ elementIndex 5 UNKNOWN 3 = 243
  /\ elementIndex 5 UNKNOWN 3 = elementIndex (5 + 1) TIB 3
  /\ region_ElementIndex (elementIndex 5 UNKNOWN 3) = 5 + 1
  /\ subdet (elementIndex 5 UNKNOWN 3) = Some TIB
  /\ layer (elementIndex 5 UNKNOWN 3) = 3.
Proof.
  assert (Hr : 0 <= 5) by lia.
  assert (Hl : 0 <= 3 < MAXLAYERS) by (unfold MAXLAYERS; lia).
  assert (Hfit : (5 + 1) * 40 + 3 < modulus) by (vm_compute; reflexivity).
  split; [exact Hr|]. split; [exact Hl|]. split; [exact Hfit|].
  split; [reflexivity|].
  exact (elementIndex_UNKNOWN_aliases 5 3 Hr Hl Hfit).
Defined.

(** ** Grid indices and regions *)

Section Grid_further.

Variable D : Type.
Variable FedChannelConnection : Type.

Implicit Types c : SiStripRegionCabling D FedChannelConnection.

Lemma region_PositionIndex_closed_form c (eta phi : Z) :
  0 <= eta -> 0 <= phi -> 0 <= phidivisions_ c ->
  eta * phidivisions_ c + phi < modulus ->
  region_PositionIndex c (eta, phi) = eta * phidivisions_ c + phi.
Proof.
  intros He Hp Hd Hfit. unfold region_PositionIndex, add32, mul32. simpl.
  rewrite wrap32_add_l. apply wrap32_small. unfold is_uint32. nia.
Qed.

(** What [periodicIndex] leaves of an unsigned phi bin, and its flag. *)
Lemma periodicIndex_result c (eta phi : Z) :
  is_uint32 phi -> 0 < phidivisions_ c ->
  periodicIndex c (eta, phi)
  = ((eta, if phi <? phidivisions_ c then phi else phi - phidivisions_ c),
     negb ((eta <? 0) || (eta >=? etadivisions_ c))).
Proof.
  intros Hphi Hd.
  rewrite (surjective_pairing (periodicIndex c (eta, phi))).
  rewrite periodicIndex_flag, periodicIndex_unsigned by apply Hphi.
  simpl. f_equal. f_equal.
  destruct (phi >=? phidivisions_ c) eqn:E1;
    destruct (phi <? phidivisions_ c) eqn:E2; try lia; try reflexivity.
  apply wrap32_small. unfold is_uint32 in *. lia.
Qed.

(** X4. [positionIndex(region(index)) == index] for a grid index whose phi
    bin is below [phidivisions_] and whose region fits in 32 bits: the
    converse of the round trip of C3. *)
Theorem positionIndex_region_roundtrip c (eta phi : Z) :
  0 <= eta -> 0 <= phi < phidivisions_ c ->
  eta * phidivisions_ c + phi < modulus ->
  positionIndex_Region c (region_PositionIndex c (eta, phi))
  = Some (eta, phi).
Proof.
  intros He Hp Hfit.
  rewrite region_PositionIndex_closed_form by lia.
  unfold positionIndex_Region.
  destruct (phidivisions_ c =? 0) eqn:E; [lia|].
  f_equal. f_equal.
  - symmetry. apply (Z.div_unique _ _ eta phi); lia.
  - symmetry. apply (Z.mod_unique _ _ eta phi); lia.
Qed.

(** X5. On a grid whose number of cells fits in 32 bits, the region of an
    index inside the grid is [eta_bin * phidivisions_ + phi_bin], lies in
    [0, etadivisions_ * phidivisions_), and determines the index. *)
Theorem region_PositionIndex_in_table c (eta phi eta' phi' : Z) :
  etadivisions_ c * phidivisions_ c <= modulus ->
  0 <= eta < etadivisions_ c -> 0 <= phi < phidivisions_ c ->
  0 <= eta' < etadivisions_ c -> 0 <= phi' < phidivisions_ c ->
  region_PositionIndex c (eta, phi) = eta * phidivisions_ c + phi
  /\ 0 <= region_PositionIndex c (eta, phi)
       < etadivisions_ c * phidivisions_ c
  /\ (region_PositionIndex c (eta, phi) = region_PositionIndex c (eta', phi')
      -> eta = eta' /\ phi = phi').
Proof.
  intros Hfit He Hp He' Hp'.
  assert (H : eta * phidivisions_ c + phi < etadivisions_ c * phidivisions_ c)
    by nia.
  assert (H' : eta' * phidivisions_ c + phi'
               < etadivisions_ c * phidivisions_ c) by nia.
  rewrite !region_PositionIndex_closed_form by lia.
  split; [reflexivity|]. split; [nia|].
  intros Heq.
  assert (Heta : eta = eta') by nia.
  split; [exact Heta|]. subst eta'. lia.
Qed.



(** X8. On a grid whose number of cells fits in 32 bits, an index that
    [periodicIndex] accepts, given with an unsigned phi bin below
    [2 * phidivisions_], comes back with a region inside
    [0, etadivisions_ * phidivisions_); one period past the seam it is the
    region of the cell one period back. *)
Theorem periodicIndex_accepted_region c (eta phi : Z) :
  etadivisions_ c * phidivisions_ c <= modulus ->
  is_uint32 phi -> phi < 2 * phidivisions_ c ->
  snd (periodicIndex c (eta, phi)) = true ->
  let index' := fst (periodicIndex c (eta, phi)) in
  0 <= region_PositionIndex c index' < etadivisions_ c * phidivisions_ c
  /\ (phidivisions_ c <= phi ->
      region_PositionIndex c index'
      = region_PositionIndex c (eta, phi - phidivisions_ c)).
Proof.
  intros Hfit Hphi Hp Hok. cbv zeta.
  assert (Hd : 0 < phidivisions_ c) by (unfold is_uint32 in Hphi; lia).
  unfold is_uint32 in Hphi.
  rewrite periodicIndex_result in Hok |- * by (unfold is_uint32; auto).
  cbn [fst snd] in Hok |- *. apply negb_true_iff, orb_false_iff in Hok.
  destruct (phi <? phidivisions_ c) eqn:E.
  - split; [|lia].
    rewrite region_PositionIndex_closed_form by nia. nia.
  - split; [|reflexivity].
    rewrite region_PositionIndex_closed_form by nia. nia.
Qed.

End Grid_further.

Lemma positionIndex_region_roundtrip_witness :
  0 <= 2 /\ 0 <= 7 < phidivisions_ grid_4x8
  /\ 2 * phidivisions_ grid_4x8 + 7 < modulus
  /\ region_PositionIndex grid_4x8 (2, 7) = 23
  /\ positionIndex_Region grid_4x8 (region_PositionIndex grid_4x8 (2, 7))
     = Some (2, 7).
Proof.
  assert (He : 0 <= 2) by lia.
  assert (Hp : 0 <= 7 < phidivisions_ grid_4x8) by (simpl; lia).
  assert (Hfit : 2 * phidivisions_ grid_4x8 + 7 < modulus)
    by (vm_compute; reflexivity).
  split; [exact He|]. split; [exact Hp|]. split; [exact Hfit|].
  split; [reflexivity|].
  exact (positionIndex_region_roundtrip _ _ grid_4x8 2 7 He Hp Hfit).
Defined.

Lemma region_PositionIndex_in_table_witness :
  etadivisions_ grid_4x8 * phidivisions_ grid_4x8 <= modulus
  /\ region_PositionIndex grid_4x8 (3, 7) = 3 * phidivisions_ grid_4x8 + 7
  /\ 0 <= region_PositionIndex grid_4x8 (3, 7)
       < etadivisions_ grid_4x8 * phidivisions_ grid_4x8
  /\ (region_PositionIndex grid_4x8 (3, 7)
      = region_PositionIndex grid_4x8 (0, 0) -> 3 = 0 /\ 7 = 0).
Proof.
  assert (Hfit : etadivisions_ grid_4x8 * phidivisions_ grid_4x8 <= modulus)
    by (vm_compute; discriminate).
  split; [exact Hfit|].
  apply (region_PositionIndex_in_table _ _ grid_4x8 3 7 0 0 Hfit);
    simpl; lia.
Defined.



Lemma periodicIndex_accepted_region_witness :
  etadivisions_ grid_4x8 * phidivisions_ grid_4x8 <= modulus
  /\ is_uint32 9 /\ 9 < 2 * phidivisions_ grid_4x8
  /\ periodicIndex grid_4x8 (1, 9) = ((1, 1), true)
  /\ 0 <= region_PositionIndex grid_4x8 (fst (periodicIndex grid_4x8 (1, 9)))
       < etadivisions_ grid_4x8 * phidivisions_ grid_4x8.
Proof.
  assert (Hfit : etadivisions_ grid_4x8 * phidivisions_ grid_4x8 <= modulus)
    by (vm_compute; discriminate).
  assert (Hphi : is_uint32 9) by (unfold is_uint32, modulus; lia).
  assert (Hlt : 9 < 2 * phidivisions_ grid_4x8) by reflexivity.
  assert (Hok : snd (periodicIndex grid_4x8 (1, 9)) = true) by reflexivity.
  split; [exact Hfit|]. split; [exact Hphi|]. split; [exact Hlt|].
  split; [reflexivity|].
  apply (periodicIndex_accepted_region _ _ grid_4x8 1 9 Hfit Hphi Hlt Hok).
Defined.

(** ** The candidates of a window at the edges of the grid *)

Lemma wrap32_negative (z : Z) : - modulus <= z < 0 -> wrap32 z = z + modulus.
Proof.
  intros Hz. unfold wrap32. symmetry.
  apply (Z.mod_unique z modulus (-1) (z + modulus)); lia.
Qed.

Lemma window_coordinate (x d i : Z) :
  add32 (sub32 x d) i = wrap32 (x - d + i).
Proof. unfold add32, sub32. apply wrap32_add_l. Qed.

Section Window_edges.

Variable D : Type.
Variable FedChannelConnection : Type.

Implicit Types c : SiStripRegionCabling D FedChannelConnection.

(** X9. In eta the unsigned arithmetic of the selector is harmless: for
    a centre inside the grid and [etadivisions_ + deta <= 2^32], the
    candidate of loop counter [ieta] is accepted by [periodicIndex]
    exactly when [eta_bin - deta + ieta], computed in the integers, is in
    [0, etadivisions_), and then its eta bin is that number; a candidate
    below bin 0 wraps to a large bin and is rejected. *)
Theorem window_eta_edges c (eta_bin deta ieta phi : Z) :
  0 <= eta_bin < etadivisions_ c -> 0 <= deta -> 0 <= ieta <= 2 * deta ->
  etadivisions_ c + deta <= modulus ->
  let candidate := (add32 (sub32 eta_bin deta) ieta, phi) in
  (snd (periodicIndex c candidate) = true
   <-> 0 <= eta_bin - deta + ieta < etadivisions_ c)
  /\ (0 <= eta_bin - deta + ieta ->
      fst (fst (periodicIndex c candidate)) = eta_bin - deta + ieta).
Proof.
  intros He Hd Hi Hfit. cbv zeta.
  rewrite periodicIndex_eta, periodicIndex_flag. cbn [fst snd].
  rewrite window_coordinate, negb_true_iff, orb_false_iff.
  destruct (Z.lt_ge_cases (eta_bin - deta + ieta) 0) as [Hneg | Hpos].
  - rewrite wrap32_negative by lia. lia.
  - rewrite wrap32_small by (unfold is_uint32; lia). lia.
Qed.

(** X10. In phi it is not: for a centre inside the grid and
    [2 * phidivisions_ + dphi <= 2^32], with
    [m = phi_bin - dphi + iphi] computed in the integers, the candidate
    leaves [periodicIndex] with phi bin [m] when [m] is in the grid, with
    [m - phidivisions_] when [m] is at or past the seam, and with
    [m + 2^32 - phidivisions_], which is not below [phidivisions_], when
    [m] is negative; so the phi bin it leaves is in the grid exactly when
    [0 <= m < 2 * phidivisions_]. *)
Theorem window_phi_edges c (eta phi_bin dphi iphi : Z) :
  0 <= phi_bin < phidivisions_ c -> 0 <= dphi -> 0 <= iphi <= 2 * dphi ->
  2 * phidivisions_ c + dphi <= modulus ->
  let m := phi_bin - dphi + iphi in
  let phi' :=
    snd (fst (periodicIndex c (eta, add32 (sub32 phi_bin dphi) iphi))) in
  (0 <= m < phidivisions_ c -> phi' = m)
  /\ (phidivisions_ c <= m -> phi' = m - phidivisions_ c)
  /\ (m < 0 -> phi' = m + modulus - phidivisions_ c
               /\ phidivisions_ c <= phi')
  /\ (0 <= phi' < phidivisions_ c <-> 0 <= m < 2 * phidivisions_ c).
Proof.
  intros Hp Hd Hi Hfit. cbv zeta. rewrite window_coordinate.
  destruct (Z.lt_ge_cases (phi_bin - dphi + iphi) 0) as [Hneg | Hpos].
  - rewrite wrap32_negative by lia.
    rewrite periodicIndex_result by (unfold is_uint32; lia).
    cbn [fst snd].
    destruct (phi_bin - dphi + iphi + modulus <? phidivisions_ c) eqn:E; lia.
  - rewrite wrap32_small by (unfold is_uint32; lia).
    rewrite periodicIndex_result by (unfold is_uint32; lia).
    cbn [fst snd].
    destruct (phi_bin - dphi + iphi <? phidivisions_ c) eqn:E; lia.
Qed.

End Window_edges.

Lemma window_eta_edges_witness :
  0 <= 0 < etadivisions_ grid_4x8 /\ 0 <= 1 /\ 0 <= 0 <= 2 * 1
  /\ etadivisions_ grid_4x8 + 1 <= modulus
  /\ periodicIndex grid_4x8 (add32 (sub32 0 1) 0, 3)
     = ((4294967295, 3), false)
  /\ (snd (periodicIndex grid_4x8 (add32 (sub32 0 1) 0, 3)) = true
      <-> 0 <= 0 - 1 + 0 < etadivisions_ grid_4x8).
Proof.
  assert (He : 0 <= 0 < etadivisions_ grid_4x8) by (simpl; lia).
  assert (Hd : 0 <= 1) by lia.
  assert (Hi : 0 <= 0 <= 2 * 1) by lia.
  assert (Hfit : etadivisions_ grid_4x8 + 1 <= modulus)
    by (vm_compute; discriminate).
  split; [exact He|]. split; [exact Hd|]. split; [exact Hi|].
  split; [exact Hfit|]. split; [reflexivity|].
  apply (window_eta_edges _ _ grid_4x8 0 1 0 3 He Hd Hi Hfit).
Defined.

Lemma window_phi_edges_witness :
  0 <= 0 < phidivisions_ grid_4x8 /\ 0 <= 1 /\ 0 <= 0 <= 2 * 1
  /\ 2 * phidivisions_ grid_4x8 + 1 <= modulus
  /\ 0 - 1 + 0 < 0
  /\ snd (fst (periodicIndex grid_4x8 (2, add32 (sub32 0 1) 0)))
     = 0 - 1 + 0 + modulus - phidivisions_ grid_4x8
  /\ phidivisions_ grid_4x8
     <= snd (fst (periodicIndex grid_4x8 (2, add32 (sub32 0 1) 0))).
Proof.
  assert (Hp : 0 <= 0 < phidivisions_ grid_4x8) by (simpl; lia).
  assert (Hd : 0 <= 1) by lia.
  assert (Hi : 0 <= 0 <= 2 * 1) by lia.
  assert (Hfit : 2 * phidivisions_ grid_4x8 + 1 <= modulus)
    by (vm_compute; discriminate).
  assert (Hneg : 0 - 1 + 0 < 0) by lia.
  split; [exact Hp|]. split; [exact Hd|]. split; [exact Hi|].
  split; [exact Hfit|]. split; [exact Hneg|].
  destruct (window_phi_edges _ _ grid_4x8 2 0 1 0 Hp Hd Hi Hfit)
    as (_ & _ & H & _).
  exact (H Hneg).
Defined.

(** ** The requests of the rectangular selector *)

Lemma traverse_In {A E : Type} (f : A -> option (list E)) (xs : list A)
  (rs : list (list E)) (e : E) :
  traverse f xs = Some rs -> In e (concat rs) ->
  exists x r, In x xs /\ f x = Some r /\ In e r.
Proof.
  revert rs. induction xs as [|x xs IH]; intros rs; simpl.
  - intros [= <-] [].
  - destruct (f x) as [r|] eqn:Ef; [|discriminate].
    destruct (traverse f xs) as [rs'|]; [|discriminate].
    intros [= <-]. simpl. rewrite in_app_iff. intros [Hin | Hin].
    + exists x, r. auto.
    + destruct (IH rs' eq_refl Hin) as (x' & r' & Hx & Hf & He).
      exists x', r'. auto.
Qed.

Section Window_requests.

Variable D : Type.
Context {ops : DoubleOps D}.
Variable FedChannelConnection : Type.
Variable positionIndex_Position :
  SiStripRegionCabling D FedChannelConnection -> Position D
  -> option PositionIndex.
Variable region_Position :
  SiStripRegionCabling D FedChannelConnection -> Position D -> option Region.

Implicit Types c : SiStripRegionCabling D FedChannelConnection.

Local Notation "'window'" :=
  (updateSiStripRefGetter_window positionIndex_Position region_Position)
  (only parsing).

(** The parts of a call of the selector that returns. *)
Lemma window_returns c (g g' : RefGetter) (position : Position D)
  (deltaeta deltaphi : D) (s : SubDet) (l : Layer) :
  window c g position deltaeta deltaphi s l = Some g' ->
  exists index deta dphi rs,
    positionIndex_Position c position = Some index
    /\ d_to_uint32 (deltaeta / fst (regionDimensions c))%D = Some deta
    /\ d_to_uint32 (deltaphi / snd (regionDimensions c))%D = Some dphi
    /\ traverse (cell_requests region_Position c s l)
                (window_candidates index deta dphi) = Some rs
    /\ g' = g ++ concat rs.
Proof.
  rewrite window_is_comprehension.
  destruct (positionIndex_Position c position) as [index|]; [|discriminate].
  destruct (d_to_uint32 _) as [deta|]; [|discriminate].
  destruct (d_to_uint32 _) as [dphi|]; [|discriminate].
  destruct (traverse _ _) as [rs|] eqn:Hrs; [|discriminate].
  intros [= <-]. exists index, deta, dphi, rs.
  repeat (split; [reflexivity|]). split; [exact Hrs | reflexivity].
Qed.

Lemma cell_requests_inv c (s : SubDet) (l : Layer)
  (candidate : PositionIndex) (reqs : list ElementIndex) (e : ElementIndex) :
  cell_requests region_Position c s l candidate = Some reqs -> In e reqs ->
  snd (periodicIndex c candidate) = true
  /\ exists r,
       region_Position c
         (Position_of_PositionIndex (fst (periodicIndex c candidate)))
       = Some r
       /\ e = elementIndex r s l.
Proof.
  unfold cell_requests, elementIndex_Position.
  destruct (periodicIndex c candidate) as [normalised [|]]; simpl.
  - destruct (region_Position c _) as [r|]; [|discriminate].
    intros [= <-] [<- | []]. split; [reflexivity|]. exists r. auto.
  - intros [= <-] [].
Qed.

(** X11. A call of the rectangular selector that returns keeps the
    requests already in the getter, in order, and appends one request for
    each candidate of the window that [periodicIndex] accepts, duplicates
    included: as many as accepted candidates, and at most the product of
    the two loop bounds. *)
Theorem window_appends c (g g' : RefGetter) (position : Position D)
  (deltaeta deltaphi : D) (s : SubDet) (l : Layer) :
  window c g position deltaeta deltaphi s l = Some g' ->
  exists index deta dphi reqs,
    positionIndex_Position c position = Some index
    /\ d_to_uint32 (deltaeta / fst (regionDimensions c))%D = Some deta
    /\ d_to_uint32 (deltaphi / snd (regionDimensions c))%D = Some dphi
    /\ g' = g ++ reqs
    /\ length reqs
       = length (filter (fun candidate => snd (periodicIndex c candidate))
                        (window_candidates index deta dphi))
    /\ (length reqs
        <= Z.to_nat (add32 (mul32 2 deta) 1)
           * Z.to_nat (add32 (mul32 2 dphi) 1))%nat.
Proof.
  intros H. destruct (window_returns _ _ _ _ _ _ _ _ H)
    as (index & deta & dphi & rs & Hi & He & Hp & Hrs & ->).
  exists index, deta, dphi, (concat rs).
  pose proof (window_requests_count D FedChannelConnection region_Position
                                    c s l _ _ Hrs) as Hn.
  repeat (split; [assumption || reflexivity|]).
  rewrite Hn, <- (window_candidates_length index deta dphi).
  apply filter_length_le.
Qed.

(** X12. Every request that the rectangular selector appends is an element
    index of the requested sub-detector and layer: it is
    [elementIndex(r, subdet, layer)] where [r] is what [region(Position)]
    returns on the bin numbers, read as doubles, of a candidate that
    [periodicIndex] accepted and normalised. *)
Theorem window_requests_form c (g g' : RefGetter) (position : Position D)
  (deltaeta deltaphi : D) (s : SubDet) (l : Layer) :
  window c g position deltaeta deltaphi s l = Some g' ->
  exists index deta dphi reqs,
    positionIndex_Position c position = Some index
    /\ d_to_uint32 (deltaeta / fst (regionDimensions c))%D = Some deta
    /\ d_to_uint32 (deltaphi / snd (regionDimensions c))%D = Some dphi
    /\ g' = g ++ reqs
    /\ forall e, In e reqs ->
         exists candidate r,
           In candidate (window_candidates index deta dphi)
           /\ snd (periodicIndex c candidate) = true
           /\ region_Position c
                (Position_of_PositionIndex (fst (periodicIndex c candidate)))
              = Some r
           /\ e = elementIndex r s l.
Proof.
  intros H. destruct (window_returns _ _ _ _ _ _ _ _ H)
    as (index & deta & dphi & rs & Hi & He & Hp & Hrs & ->).
  exists index, deta, dphi, (concat rs).
  repeat (split; [assumption || reflexivity|]).
  intros e Hin.
  destruct (traverse_In _ _ _ _ Hrs Hin) as (candidate & r & Hc & Hf & Her).
  destruct (cell_requests_inv _ _ _ _ _ _ Hf Her) as (Hok & r' & Hr & ->).
  exists candidate, r'. auto.
Qed.

(** X13. When both half-widths are below one cell width, so that both
    convert to 0, the window is the single cell that holds the position:
    the selector appends the request of that cell if [periodicIndex]
    accepts it, and nothing otherwise. *)
Theorem window_single_cell c (g : RefGetter) (position : Position D)
  (deltaeta deltaphi : D) (s : SubDet) (l : Layer) (eta_bin phi_bin : Z) :
  positionIndex_Position c position = Some (eta_bin, phi_bin) ->
  is_uint32 eta_bin -> is_uint32 phi_bin ->
  d_to_uint32 (deltaeta / fst (regionDimensions c))%D = Some 0 ->
  d_to_uint32 (deltaphi / snd (regionDimensions c))%D = Some 0 ->
  window c g position deltaeta deltaphi s l
  = (reqs <- cell_requests region_Position c s l (eta_bin, phi_bin) ;;
     Some (g ++ reqs))
  /\ (snd (periodicIndex c (eta_bin, phi_bin)) = false ->
      window c g position deltaeta deltaphi s l = Some g).
Proof.
  intros Hi He Hp Hde Hdp.
  assert (Hw : window c g position deltaeta deltaphi s l
               = (reqs <- cell_requests region_Position c s l
                            (eta_bin, phi_bin) ;;
                  Some (g ++ reqs))).
  { rewrite window_is_comprehension, Hi, Hde, Hdp.
    change (window_candidates (eta_bin, phi_bin) 0 0)
      with [(add32 (sub32 eta_bin 0) 0, add32 (sub32 phi_bin 0) 0)].
    rewrite !window_coordinate, !Z.sub_0_r, !Z.add_0_r.
    rewrite !wrap32_small by assumption. simpl.
    destruct (cell_requests region_Position c s l (eta_bin, phi_bin));
      [|reflexivity].
    simpl. now rewrite app_nil_r. }
  split; [exact Hw|].
  intros Hrej. rewrite Hw. unfold cell_requests.
  destruct (periodicIndex c (eta_bin, phi_bin)) as [normalised ok].
  simpl in Hrej. subst ok. now rewrite app_nil_r.
Qed.

End Window_requests.

Lemma window_appends_witness :
  updateSiStripRefGetter_window
    positionIndex_Position_spec region_Position_spec
    grid_4x6 [7] (2.5, 2.5)%float 1%float 1.5%float TIB 0
  = Some [7; 240; 280; 320; 480; 520; 560; 720; 760; 800]
  /\ exists index deta dphi reqs,
       positionIndex_Position_spec grid_4x6 (2.5, 2.5)%float = Some index
       /\ d_to_uint32 (1 / fst (regionDimensions grid_4x6))%float = Some deta
       /\ d_to_uint32 (1.5 / snd (regionDimensions grid_4x6))%float
          = Some dphi
       /\ [7; 240; 280; 320; 480; 520; 560; 720; 760; 800] = [7] ++ reqs
       /\ length reqs
          = length (filter
                      (fun candidate => snd (periodicIndex grid_4x6 candidate))
                      (window_candidates index deta dphi))
       /\ (length reqs
           <= Z.to_nat (add32 (mul32 2 deta) 1)
              * Z.to_nat (add32 (mul32 2 dphi) 1))%nat.
Proof.
  assert (H : updateSiStripRefGetter_window
                positionIndex_Position_spec region_Position_spec
                grid_4x6 [7] (2.5, 2.5)%float 1%float 1.5%float TIB 0
              = Some [7; 240; 280; 320; 480; 520; 560; 720; 760; 800])
    by (vm_compute; reflexivity).
  split; [exact H|].
  exact (window_appends float unit positionIndex_Position_spec
           region_Position_spec grid_4x6 _ _ _ _ _ _ _ H).
Defined.

Lemma window_requests_form_witness :
  updateSiStripRefGetter_window
    positionIndex_Position_spec region_Position_spec
    grid_4x6 [] (2.5, 2.5)%float 1%float 1.5%float TID 4
  = Some [264; 304; 344; 504; 544; 584; 744; 784; 824]
  /\ exists index deta dphi reqs,
       positionIndex_Position_spec grid_4x6 (2.5, 2.5)%float = Some index
       /\ d_to_uint32 (1 / fst (regionDimensions grid_4x6))%float = Some deta
       /\ d_to_uint32 (1.5 / snd (regionDimensions grid_4x6))%float
          = Some dphi
       /\ [264; 304; 344; 504; 544; 584; 744; 784; 824] = [] ++ reqs
       /\ forall e, In e reqs ->
            exists candidate r,
              In candidate (window_candidates index deta dphi)
              /\ snd (periodicIndex grid_4x6 candidate) = true
              /\ region_Position_spec grid_4x6
                   (Position_of_PositionIndex
                      (fst (periodicIndex grid_4x6 candidate)))
                 = Some r
              /\ e = elementIndex r TID 4.
Proof.
  assert (H : updateSiStripRefGetter_window
                positionIndex_Position_spec region_Position_spec
                grid_4x6 [] (2.5, 2.5)%float 1%float 1.5%float TID 4
              = Some [264; 304; 344; 504; 544; 584; 744; 784; 824])
    by (vm_compute; reflexivity).
  split; [exact H|].
  exact (window_requests_form float unit positionIndex_Position_spec
           region_Position_spec grid_4x6 _ _ _ _ _ _ _ H).
Defined.

Lemma window_single_cell_witness :
  positionIndex_Position_spec grid_4x6 (2.5, 2.5)%float = Some (2, 2)
  /\ is_uint32 2
  /\ d_to_uint32 (0.5 / fst (regionDimensions grid_4x6))%float = Some 0
  /\ d_to_uint32 (0.5 / snd (regionDimensions grid_4x6))%float = Some 0
  /\ updateSiStripRefGetter_window
       positionIndex_Position_spec region_Position_spec
       grid_4x6 [7] (2.5, 2.5)%float 0.5%float 0.5%float TIB 0
     = (reqs <- cell_requests region_Position_spec grid_4x6 TIB 0 (2, 2) ;;
        Some ([7] ++ reqs)).
Proof.
  assert (Hi : positionIndex_Position_spec grid_4x6 (2.5, 2.5)%float
               = Some (2, 2)) by (vm_compute; reflexivity).
  assert (Hu : is_uint32 2) by (unfold is_uint32, modulus; lia).
  assert (He : d_to_uint32 (0.5 / fst (regionDimensions grid_4x6))%float
               = Some 0) by (vm_compute; reflexivity).
  assert (Hp : d_to_uint32 (0.5 / snd (regionDimensions grid_4x6))%float
               = Some 0) by (vm_compute; reflexivity).
  split; [exact Hi|]. split; [exact Hu|]. split; [exact He|].
  split; [exact Hp|].
  exact (proj1 (window_single_cell float unit positionIndex_Position_spec
                  region_Position_spec grid_4x6 [7] (2.5, 2.5)%float
                  0.5%float 0.5%float TIB 0 2 2 Hi Hu Hu He Hp)).
Defined.

(** ** The size of a window *)

(** X15. The loop bound [2 * d + 1] is computed in 32 bits: for half-widths
    below 2^31 bins the window has [(2 * deta + 1) * (2 * dphi + 1)]
    candidates, and from 2^31 bins on the bound wraps to
    [2 * d + 1 - 2^32], so that fewer cells are visited than the half-width
    asks for. *)
Theorem window_size (index : PositionIndex) (deta dphi : Z) :
  is_uint32 deta -> is_uint32 dphi ->
  let bound := fun d => if d <? 2 ^ 31 then 2 * d + 1
                        else 2 * d + 1 - modulus in
  add32 (mul32 2 deta) 1 = bound deta
  /\ add32 (mul32 2 dphi) 1 = bound dphi
  /\ Z.of_nat (length (window_candidates index deta dphi))
     = bound deta * bound dphi.
Proof.
  intros He Hp. cbv zeta.
  assert (Hbound : forall d, is_uint32 d ->
            add32 (mul32 2 d) 1
            = if d <? 2 ^ 31 then 2 * d + 1 else 2 * d + 1 - modulus).
  { intros d Hd. unfold add32, mul32. rewrite wrap32_add_l.
    unfold is_uint32, modulus in *.
    destruct (d <? 2 ^ 31) eqn:E.
    - apply wrap32_small. unfold is_uint32, modulus. lia.
    - unfold wrap32. symmetry.
      apply (Z.mod_unique _ modulus 1 (2 * d + 1 - modulus));
        unfold modulus; lia. }
  rewrite window_candidates_length, Nat2Z.inj_mul.
  rewrite !Z2Nat.id by (apply wrap32_range).
  rewrite !Hbound by assumption. auto.
Qed.

Lemma window_size_witness :
  is_uint32 2147483648 /\ is_uint32 1
  /\ add32 (mul32 2 2147483648) 1 = 1
  /\ add32 (mul32 2 1) 1 = 3
  /\ Z.of_nat (length (window_candidates (2, 2) 2147483648 1)) = 1 * 3.
Proof.
  assert (He : is_uint32 2147483648) by (unfold is_uint32, modulus; lia).
  assert (Hp : is_uint32 1) by (unfold is_uint32, modulus; lia).
  split; [exact He|]. split; [exact Hp|].
  exact (window_size (2, 2) 2147483648 1 He Hp).
Defined.

(** ** The sign of the radius *)

Lemma SFmul_opp_l (prec emax : Z) (x y : spec_float) :
  SFmul prec emax (SFopp x) y = SFopp (SFmul prec emax x y).
Proof.
  destruct x as [sx|sx| |sx mx ex], y as [sy|sy| |sy my ey]; simpl;
    try reflexivity; try (now destruct sx, sy).
  unfold binary_round_aux.
  destruct (shr_fexp prec emax (Z.pos (mx * my)) (ex + ey) loc_Exact)
    as [mrs' e'].
  destruct (shr_fexp prec emax _ e' loc_Exact) as [mrs'' e''].
  destruct (shr_m mrs''); [| |reflexivity];
    [|destruct (e'' <=? emax - prec)]; now destruct sx, sy.
Qed.

Lemma SFmul_opp_r (prec emax : Z) (x y : spec_float) :
  SFmul prec emax x (SFopp y) = SFopp (SFmul prec emax x y).
Proof.
  destruct x as [sx|sx| |sx mx ex], y as [sy|sy| |sy my ey]; simpl;
    try reflexivity; try (now destruct sx, sy).
  unfold binary_round_aux.
  destruct (shr_fexp prec emax (Z.pos (mx * my)) (ex + ey) loc_Exact)
    as [mrs' e'].
  destruct (shr_fexp prec emax _ e' loc_Exact) as [mrs'' e''].
  destruct (shr_m mrs''); [| |reflexivity];
    [|destruct (e'' <=? emax - prec)]; now destruct sx, sy.
Qed.

Lemma SFopp_involutive (x : spec_float) : SFopp (SFopp x) = x.
Proof. destruct x; simpl; now rewrite ?negb_involutive. Qed.

(** In binary64 [a * -d * -d] and [a * d * d] are the same number. *)
Lemma float_mul_opp_opp (a d : float) :
  (a * - d * - d)%float = (a * d * d)%float.
Proof.
  apply Prim2SF_inj. rewrite !mul_spec, !opp_spec. unfold SF64mul.
  now rewrite !SFmul_opp_r, SFmul_opp_l, SFopp_involutive.
Qed.

(** X16. In binary64 the conical selector called with [-dR] is, bit for
    bit, the call with [dR]: the radius enters only through
    [1 / sqrt 2 * dR * dR], so a negative radius is accepted and acts as
    its absolute value. *)
Theorem cone_ignores_sign (FedChannelConnection : Type)
  (positionIndex_Position :
     SiStripRegionCabling float FedChannelConnection -> Position float
     -> option PositionIndex)
  (region_Position :
     SiStripRegionCabling float FedChannelConnection -> Position float
     -> option Region)
  (c : SiStripRegionCabling float FedChannelConnection)
  (g : RefGetter) (p : Position float) (dR : float) (s : SubDet)
  (l : Layer) :
  updateSiStripRefGetter_cone positionIndex_Position region_Position
                              c g p (- dR)%float s l
  = updateSiStripRefGetter_cone positionIndex_Position region_Position
                                c g p dR s l.
Proof.
  unfold updateSiStripRefGetter_cone. cbn [d_mul binary64].
  now rewrite float_mul_opp_opp.
Qed.
